(** * The clinical generation-validation pipeline of [pipeline.py]

    A shallow embedding of the pipeline: the [ClinicalOutput] schema and its
    word-count validator, the model call with its fallback payload, the two
    graph nodes, the linear graph and the batch loop of [main].

    Python text is a sequence of Unicode code points; the embedding keeps it
    as [list N].  An [int] is a [Z], a length a [nat].

    The libraries the program leans on are embedded next to it, as far as
    the program observes them: [json.dumps], the JSON reader and the schema
    validation behind [model_validate_json] (pydantic 2), and the runner of
    the two-node graph.  Two things of the validation library are left as
    parameters: the wording of the reader's complaint about an ill-formed
    document, and the lax reading of a JSON number as a [bool].

    The world outside the program (the prompt files, the model service) is
    a state the calls thread; a call returns a value or raises.  The
    [print] calls are left out, and so are the two ends of [main] that
    belong to storage: [read_inputs], whose list [main] takes as an
    argument, and [save_results], to which the report [main] returns is
    handed. *)

From Stdlib Require Import String Ascii DecimalString.
From Stdlib Require Import List NArith ZArith Bool Lia.
Import ListNotations.

Set Implicit Arguments.
Set Warnings "-register-all".

(* ================================================================== *)
(** * Python text *)
(* ================================================================== *)

Module Text.

(** A Python [str]: its code points, in order. *)
Definition pystr := list N.

Local Open Scope N_scope.

(** Decoding of the UTF-8 bytes of a source literal into code points. *)
Fixpoint utf8_decode (bs : list N) : pystr :=
  match bs with
  | [] => []
  | b0 :: t0 =>
      if b0 <? 128 then b0 :: utf8_decode t0
      else
        match t0 with
        | [] => []
        | b1 :: t1 =>
            if b0 <? 224 then ((b0 mod 32) * 64 + b1 mod 64) :: utf8_decode t1
            else
              match t1 with
              | [] => []
              | b2 :: t2 =>
                  if b0 <? 240
                  then ((b0 mod 16) * 4096 + (b1 mod 64) * 64 + b2 mod 64)
                         :: utf8_decode t2
                  else
                    match t2 with
                    | [] => []
                    | b3 :: t3 =>
                        ((b0 mod 8) * 262144 + (b1 mod 64) * 4096
                         + (b2 mod 64) * 64 + b3 mod 64) :: utf8_decode t3
                    end
              end
        end
  end.

(** [u "..."] is the Python [str] written by the literal. *)
Definition u (s : string) : pystr :=
  utf8_decode (map N_of_ascii (list_ascii_of_string s)).

(** [str(n)] for a non-negative [int]. *)
Definition str_of_nat (n : nat) : pystr :=
  u (NilZero.string_of_uint (Nat.to_uint n)).

Definition pystr_eqb (a b : pystr) : bool :=
  if list_eq_dec N.eq_dec a b then true else false.

Fixpoint starts_with (p s : pystr) : bool :=
  match p, s with
  | [], _ => true
  | _ :: _, [] => false
  | a :: p', b :: s' => (a =? b) && starts_with p' s'
  end.

(** [sep.join(parts)]. *)
Fixpoint join (sep : pystr) (parts : list pystr) : pystr :=
  match parts with
  | [] => []
  | [p] => p
  | p :: rest => p ++ sep ++ join sep rest
  end.

(** [str.isspace] on one code point: the characters Python's [str.split()]
    treats as separators. *)
Definition is_space (c : N) : bool :=
  ((9 <=? c) && (c <=? 13)) || ((28 <=? c) && (c <=? 32))
  || (c =? 133) || (c =? 160) || (c =? 5760)
  || ((8192 <=? c) && (c <=? 8202))
  || (c =? 8232) || (c =? 8233) || (c =? 8239) || (c =? 8287) || (c =? 12288).

(** [s.split()]: the maximal runs of non-space characters, in order.  [cur]
    holds the run being read, last character first. *)
Fixpoint split_from (s : pystr) (cur : pystr) : list pystr :=
  match s with
  | [] => match cur with [] => [] | _ :: _ => [rev cur] end
  | c :: s' =>
      if is_space c
      then match cur with
           | [] => split_from s' []
           | _ :: _ => rev cur :: split_from s' []
           end
      else split_from s' (c :: cur)
  end.

Definition split (s : pystr) : list pystr := split_from s [].

(** [s.replace(old, new)] for a non-empty [old]: scanning left to right,
    every occurrence that does not overlap the previous one is replaced.
    [skip] counts the characters of a matched occurrence still to drop. *)
Fixpoint replace_from (old new s : pystr) (skip : nat) : pystr :=
  match s with
  | [] => []
  | c :: s' =>
      match skip with
      | S k => replace_from old new s' k
      | O =>
          if starts_with old s
          then new ++ replace_from old new s' (Nat.pred (length old))
          else c :: replace_from old new s' 0
      end
  end.

Definition replace (s old new : pystr) : pystr := replace_from old new s 0.

End Text.
Import Text.

(* ================================================================== *)
(** * 1. The schemas *)
(* ================================================================== *)

(** [Literal["baixo", "médio", "alto"]]. *)
Inductive RiskLevel := baixo | medio | alto.

Definition risk_levels : list RiskLevel := [baixo; medio; alto].

(** The text of a level, as the literal spells it. *)
Definition level_str (l : RiskLevel) : pystr :=
  match l with
  | baixo => u "baixo"
  | medio => u "médio"
  | alto => u "alto"
  end.

Record RiskAssessment := mkRiskAssessment {
  level : RiskLevel;
  signals : list pystr
}.

Record ClinicalReport := mkClinicalReport {
  required : bool;
  summary : pystr
}.

Record ClinicalOutput := mkClinicalOutput {
  analysis : pystr;
  themes : list pystr;
  signifiers : list pystr;
  hypotheses : list pystr;
  questions : list pystr;
  risk_assessment : RiskAssessment;
  clinical_report : ClinicalReport
}.

(** The outcome of a validator function: the value it returns, or the
    message of the [ValueError] it raises. *)
Inductive Checked (A : Type) :=
| Accepted (a : A)
| ValueError (msg : pystr).
Arguments ValueError {A} msg.

Definition min_words : nat := 40.
Definition max_words : nat := 200.

(** [len(v.split())]. *)
Definition word_count (v : pystr) : nat := List.length (split v).

(** The field validator of [analysis]. *)
Definition validate_analysis_length (v : pystr) : Checked pystr :=
  let word_count := word_count v in
  if (word_count <? min_words)%nat then
    ValueError (u "Análise muito curta (" ++ str_of_nat word_count
                ++ u " palavras). Mínimo esperado: " ++ str_of_nat min_words
                ++ u ".")
  else if (max_words <? word_count)%nat then
    ValueError (u "Análise muito longa (" ++ str_of_nat word_count
                ++ u " palavras). Máximo esperado: " ++ str_of_nat max_words
                ++ u ".")
  else Accepted v.

(* ================================================================== *)
(** * JSON: the serializer of [json.dumps] and the reader behind
      [model_validate_json] *)
(* ================================================================== *)

Module Json.

Local Open Scope N_scope.

(** The Python values the program serializes: the literal of
    [mock_response] and what [model_dump] returns. *)
Inductive PyVal :=
| PyStr (s : pystr)
| PyBool (b : bool)
| PyList (items : list PyVal)
| PyDict (entries : list (pystr * PyVal)).

Definition hex_digit (n : N) : N := if n <? 10 then 48 + n else 87 + n.

(** One character of a string under [ensure_ascii=False]: the quote, the
    backslash and the control characters are escaped, everything else is
    written as it is. *)
Definition escape_char (c : N) : pystr :=
  if c =? 34 then [92; 34]
  else if c =? 92 then [92; 92]
  else if c =? 10 then [92; 110]
  else if c =? 13 then [92; 114]
  else if c =? 9 then [92; 116]
  else if c =? 8 then [92; 98]
  else if c =? 12 then [92; 102]
  else if c <? 32 then [92; 117; 48; 48; hex_digit (c / 16); hex_digit (c mod 16)]
  else [c].

Definition encode_basestring (s : pystr) : pystr :=
  34 :: flat_map escape_char s ++ [34].

(** [json.dumps(v, ensure_ascii=False)]: no indent, so the item separator
    is [", "] and the key separator [": "]; a [dict] keeps its order. *)
Fixpoint dumps (v : PyVal) : pystr :=
  match v with
  | PyStr s => encode_basestring s
  | PyBool true => u "true"
  | PyBool false => u "false"
  | PyList items => u "[" ++ join (u ", ") (map dumps items) ++ u "]"
  | PyDict entries =>
      u "{"
      ++ join (u ", ")
           (map (fun kv => encode_basestring (fst kv) ++ u ": " ++ dumps (snd kv))
                entries)
      ++ u "}"
  end.

(** A parsed JSON document.  A number keeps its lexeme; an object keeps its
    members in order, repeated keys included. *)
Inductive JsonValue :=
| JNull
| JBool (b : bool)
| JNum (lexeme : pystr)
| JStr (s : pystr)
| JArr (items : list JsonValue)
| JObj (members : list (pystr * JsonValue)).

Definition is_json_ws (c : N) : bool :=
  (c =? 32) || (c =? 9) || (c =? 10) || (c =? 13).

Fixpoint skip_ws (s : pystr) : pystr :=
  match s with
  | [] => []
  | c :: r => if is_json_ws c then skip_ws r else s
  end.

Definition is_digit (c : N) : bool := (48 <=? c) && (c <=? 57).

Definition hex_value (c : N) : option N :=
  if is_digit c then Some (c - 48)
  else if (97 <=? c) && (c <=? 102) then Some (c - 87)
  else if (65 <=? c) && (c <=? 70) then Some (c - 55)
  else None.

Definition hex4 (a b c d : N) : option N :=
  match hex_value a, hex_value b, hex_value c, hex_value d with
  | Some x, Some y, Some z, Some w => Some (x * 4096 + y * 256 + z * 16 + w)
  | _, _, _, _ => None
  end.

Definition is_high_surrogate (c : N) : bool := (55296 <=? c) && (c <=? 56319).
Definition is_low_surrogate (c : N) : bool := (56320 <=? c) && (c <=? 57343).

(** The character a one-letter escape stands for. *)
Definition unescape (e : N) : option N :=
  if e =? 34 then Some 34
  else if e =? 92 then Some 92
  else if e =? 47 then Some 47
  else if e =? 98 then Some 8
  else if e =? 102 then Some 12
  else if e =? 110 then Some 10
  else if e =? 114 then Some 13
  else if e =? 116 then Some 9
  else None.

(** The rest of a string after its opening quote: the decoded text (kept in
    [acc], last character first) and what follows the closing quote. *)
Fixpoint parse_string_tail (inp : pystr) (acc : pystr) : option (pystr * pystr) :=
  match inp with
  | [] => None
  | c :: rest =>
      if c =? 34 then Some (rev acc, rest)
      else if c =? 92 then
        match rest with
        | [] => None
        | e :: r1 =>
            if e =? 117 then
              match r1 with
              | h1 :: h2 :: h3 :: h4 :: r5 =>
                  match hex4 h1 h2 h3 h4 with
                  | None => None
                  | Some cp =>
                      if is_high_surrogate cp then
                        match r5 with
                        | b :: m :: l1 :: l2 :: l3 :: l4 :: r11 =>
                            if (b =? 92) && (m =? 117) then
                              match hex4 l1 l2 l3 l4 with
                              | Some lo =>
                                  if is_low_surrogate lo
                                  then parse_string_tail r11
                                         (65536 + (cp - 55296) * 1024 + (lo - 56320)
                                          :: acc)
                                  else None
                              | None => None
                              end
                            else None
                        | _ => None
                        end
                      else if is_low_surrogate cp then None
                      else parse_string_tail r5 (cp :: acc)
                  end
              | _ => None
              end
            else
              match unescape e with
              | Some ch => parse_string_tail r1 (ch :: acc)
              | None => None
              end
        end
      else if c <? 32 then None
      else parse_string_tail rest (c :: acc)
  end.

Fixpoint take_digits (s : pystr) : pystr * pystr :=
  match s with
  | [] => ([], [])
  | c :: r =>
      if is_digit c
      then let '(ds, r') := take_digits r in (c :: ds, r')
      else ([], s)
  end.

Definition strip_prefix (p s : pystr) : option pystr :=
  if starts_with p s then Some (skipn (List.length p) s) else None.

(** The optional sign, fraction and exponent of a number: the part read
    and the rest of the input; [None] when the part is begun and broken. *)
Definition take_sign (inp : pystr) : pystr * pystr :=
  match inp with
  | c :: r => if c =? 45 then ([c], r) else ([], inp)
  | [] => ([], inp)
  end.

Definition take_fraction (inp : pystr) : option (pystr * pystr) :=
  match inp with
  | c :: r =>
      if c =? 46 then
        let '(ds, r') := take_digits r in
        match ds with
        | [] => None
        | _ :: _ => Some (c :: ds, r')
        end
      else Some ([], inp)
  | [] => Some ([], inp)
  end.

Definition take_exponent (inp : pystr) : option (pystr * pystr) :=
  match inp with
  | e :: r =>
      if (e =? 101) || (e =? 69) then
        let '(esign, r') :=
          match r with
          | s :: r'' => if (s =? 43) || (s =? 45) then ([s], r'') else ([], r)
          | [] => ([], r)
          end in
        let '(ds, r'') := take_digits r' in
        match ds with
        | [] => None
        | _ :: _ => Some (e :: esign ++ ds, r'')
        end
      else Some ([], inp)
  | [] => Some ([], inp)
  end.

(** A number: its lexeme and the rest of the input.  The reader also takes
    the three non-finite spellings. *)
Definition parse_number (inp : pystr) : option (pystr * pystr) :=
  match strip_prefix (u "NaN") inp, strip_prefix (u "Infinity") inp,
        strip_prefix (u "-Infinity") inp with
  | Some r, _, _ => Some (u "NaN", r)
  | _, Some r, _ => Some (u "Infinity", r)
  | _, _, Some r => Some (u "-Infinity", r)
  | None, None, None =>
      let '(sign, r0) := take_sign inp in
      match r0 with
      | [] => None
      | d :: r1 =>
          if negb (is_digit d) then None
          else
            let '(int_part, r2) :=
              if d =? 48 then ([d], r1)
              else let '(ds, r') := take_digits r1 in (d :: ds, r') in
            match take_fraction r2 with
            | None => None
            | Some (frac_part, r3) =>
                match take_exponent r3 with
                | None => None
                | Some (exp_part, r4) =>
                    Some (sign ++ int_part ++ frac_part ++ exp_part, r4)
                end
            end
      end
  end.

Section Containers.

(** The reader of one value, one nesting level further in. *)
Variable parse_inner : pystr -> option (JsonValue * pystr).

(** The items of an array after its opening bracket, the first item at the
    head of [inp]. *)
Fixpoint parse_items (fuel : nat) (inp : pystr) (acc : list JsonValue)
  : option (list JsonValue * pystr) :=
  match fuel with
  | O => None
  | S fuel' =>
      match parse_inner inp with
      | None => None
      | Some (v, rest) =>
          match skip_ws rest with
          | [] => None
          | c :: r =>
              if c =? 44 then parse_items fuel' (skip_ws r) (v :: acc)
              else if c =? 93 then Some (rev (v :: acc), r)
              else None
          end
      end
  end.

(** The members of an object after its opening brace, the first key at the
    head of [inp]. *)
Fixpoint parse_members (fuel : nat) (inp : pystr) (acc : list (pystr * JsonValue))
  : option (list (pystr * JsonValue) * pystr) :=
  match fuel with
  | O => None
  | S fuel' =>
      match inp with
      | [] => None
      | q :: r =>
          if negb (q =? 34) then None
          else
            match parse_string_tail r [] with
            | None => None
            | Some (k, r1) =>
                match skip_ws r1 with
                | [] => None
                | colon :: r2 =>
                    if negb (colon =? 58) then None
                    else
                      match parse_inner (skip_ws r2) with
                      | None => None
                      | Some (v, r3) =>
                          match skip_ws r3 with
                          | [] => None
                          | c :: r4 =>
                              if c =? 44
                              then parse_members fuel' (skip_ws r4) ((k, v) :: acc)
                              else if c =? 125 then Some (rev ((k, v) :: acc), r4)
                              else None
                          end
                      end
                end
            end
      end
  end.

End Containers.

(** One value at the head of [inp].  [depth] is the number of container
    levels that may still be entered: the reader gives up on a document
    nested deeper than its recursion limit.  A level is spent when the
    first item of a container is read, so an empty container costs none.
    The loops over the items of a container are given the length of the
    input as fuel. *)
Fixpoint parse_value (depth : nat) (inp : pystr) : option (JsonValue * pystr) :=
  match inp with
  | [] => None
  | c :: rest =>
      if c =? 91 then
        match skip_ws rest with
        | [] => None
        | c' :: r =>
            if c' =? 93 then Some (JArr [], r)
            else
              match depth with
              | O => None
              | S d =>
                  match parse_items (parse_value d) (S (List.length r)) (c' :: r) [] with
                  | Some (items, r') => Some (JArr items, r')
                  | None => None
                  end
              end
        end
      else if c =? 123 then
        match skip_ws rest with
        | [] => None
        | c' :: r =>
            if c' =? 125 then Some (JObj [], r)
            else
              match depth with
              | O => None
              | S d =>
                  match parse_members (parse_value d) (S (List.length r)) (c' :: r) [] with
                  | Some (members, r') => Some (JObj members, r')
                  | None => None
                  end
              end
        end
      else if c =? 34 then
        match parse_string_tail rest [] with
        | Some (s, r) => Some (JStr s, r)
        | None => None
        end
      else
        match strip_prefix (u "true") inp, strip_prefix (u "false") inp,
              strip_prefix (u "null") inp with
        | Some r, _, _ => Some (JBool true, r)
        | _, Some r, _ => Some (JBool false, r)
        | _, _, Some r => Some (JNull, r)
        | None, None, None =>
            match parse_number inp with
            | Some (lexeme, r) => Some (JNum lexeme, r)
            | None => None
            end
        end
  end.

Definition recursion_limit : nat := 200.

(** A whole document: one value, blanks around it, nothing after. *)
Definition parse_json (raw : pystr) : option JsonValue :=
  match parse_value recursion_limit (skip_ws raw) with
  | Some (v, rest) =>
      match skip_ws rest with
      | [] => Some v
      | _ :: _ => None
      end
  | None => None
  end.

(** The value of a key of an object: the last member with that key. *)
Fixpoint lookup (key : pystr) (members : list (pystr * JsonValue)) : option JsonValue :=
  match members with
  | [] => None
  | (k, v) :: rest =>
      match lookup key rest with
      | Some v' => Some v'
      | None => if pystr_eqb k key then Some v else None
      end
  end.

End Json.
Import Json.

(* ================================================================== *)
(** * The line errors of a [ValidationError] *)
(* ================================================================== *)

(** One step of an error's location: a field name or a list index. *)
Inductive LocItem :=
| LocKey (name : pystr)
| LocIndex (i : nat).

(** The kinds of error the schema of this program can produce. *)
Inductive ErrorType :=
| missing
| string_type
| list_type
| too_short (min_length actual_length : nat)
| too_long (max_length actual_length : nat)
| bool_type
| bool_parsing
| literal_error
| model_type
| value_error (error : pystr)
| json_invalid (error : pystr)
| json_type.

(** One entry of [e.errors()]: the program reads its ['msg'] and ['loc']. *)
Record LineError := mkLineError {
  err_type : ErrorType;
  err_loc : list LocItem
}.

Definition plural (n : nat) : pystr :=
  match n with 1%nat => [] | _ => u "s" end.

(** [err['msg']]: the validator's message for an error read from JSON. *)
Definition err_msg (e : LineError) : pystr :=
  match err_type e with
  | missing => u "Field required"
  | string_type => u "Input should be a valid string"
  | list_type => u "Input should be a valid array"
  | too_short n actual =>
      u "List should have at least " ++ str_of_nat n ++ u " item" ++ plural n
      ++ u " after validation, not " ++ str_of_nat actual
  | too_long n actual =>
      u "List should have at most " ++ str_of_nat n ++ u " item" ++ plural n
      ++ u " after validation, not " ++ str_of_nat actual
  | bool_type => u "Input should be a valid boolean"
  | bool_parsing => u "Input should be a valid boolean, unable to interpret input"
  | literal_error => u "Input should be 'baixo', 'médio' or 'alto'"
  | model_type => u "Input should be an object"
  | value_error error => u "Value error, " ++ error
  | json_invalid error => u "Invalid JSON: " ++ error
  | json_type => u "JSON input should be string, bytes or bytearray"
  end.

(** [repr] of one step of a location; the field names of the schema hold no
    quote or escape, so a name is written between single quotes. *)
Definition repr_loc_item (i : LocItem) : pystr :=
  match i with
  | LocKey name => u "'" ++ name ++ u "'"
  | LocIndex n => str_of_nat n
  end.

(** [str(err['loc'])]: the [repr] of a tuple. *)
Definition repr_loc (loc : list LocItem) : pystr :=
  match loc with
  | [] => u "()"
  | [i] => u "(" ++ repr_loc_item i ++ u ",)"
  | _ => u "(" ++ join (u ", ") (map repr_loc_item loc) ++ u ")"
  end.

(** The result of validating one value: the value, or the line errors. *)
Inductive Validated (A : Type) :=
| Valid (a : A)
| Invalid (errs : list LineError).
Arguments Invalid {A} errs.

Definition errors_of {A} (v : Validated A) : list LineError :=
  match v with
  | Valid _ => []
  | Invalid errs => errs
  end.

(** An error of an inner value, located from the outer one. *)
Definition with_outer_location (i : LocItem) (e : LineError) : LineError :=
  mkLineError (err_type e) (i :: err_loc e).

(** What [model_validate_json] can raise, by the handler of
    [validation_node] that catches it. *)
Inductive Raised :=
| ValidationError (errs : list LineError)
| JSONDecodeError (text : pystr)
| OtherException (text : pystr).

(* ================================================================== *)
(** * 2. State definition, and the report *)
(* ================================================================== *)

(** [ClinicalState].  [raw_response] is the one key the program reads with
    [.get]: [None] here is a state without the key, [Some None] the key
    holding Python's [None]. *)
Record ClinicalState := mkClinicalState {
  filename : pystr;
  input_text : pystr;
  prompt_version : pystr;
  raw_response : option (option pystr);
  parsed_output : option ClinicalOutput;
  errors : list pystr
}.

(** The [Dict] a node returns: the keys it holds, with their values. *)
Record Update := mkUpdate {
  upd_raw_response : option (option pystr);
  upd_parsed_output : option (option ClinicalOutput);
  upd_errors : option (list pystr)
}.

(** The graph runner writes the keys of a node's [Dict] over the state and
    carries the other keys through. *)
Definition apply_update (state : ClinicalState) (upd : Update) : ClinicalState :=
  mkClinicalState
    (filename state) (input_text state) (prompt_version state)
    (match upd_raw_response upd with
     | Some v => Some v
     | None => raw_response state
     end)
    (match upd_parsed_output upd with
     | Some v => v
     | None => parsed_output state
     end)
    (match upd_errors upd with
     | Some v => v
     | None => errors state
     end).

(** [state.get("raw_response", default)]. *)
Definition get_raw_response (state : ClinicalState) (default : pystr) : option pystr :=
  match raw_response state with
  | Some v => v
  | None => Some default
  end.

(** One entry of [results]. *)
Record ItemResult := mkItemResult {
  file : pystr;
  ok : bool;
  item_errors : list pystr;
  output : option PyVal
}.

Record Metrics := mkMetrics {
  metrics_ok : Z;
  metrics_failed : Z
}.

(** The [payload] of [main]. *)
Record RunReport := mkRunReport {
  report_prompt_version : pystr;
  total : Z;
  metrics : Metrics;
  results : list ItemResult
}.

(** [output_obj.model_dump()]: the model as plain [dict]s and [list]s, the
    fields in declaration order. *)
Definition model_dump (o : ClinicalOutput) : PyVal :=
  PyDict
    [ (u "analysis", PyStr (analysis o));
      (u "themes", PyList (map PyStr (themes o)));
      (u "signifiers", PyList (map PyStr (signifiers o)));
      (u "hypotheses", PyList (map PyStr (hypotheses o)));
      (u "questions", PyList (map PyStr (questions o)));
      (u "risk_assessment",
        PyDict [ (u "level", PyStr (level_str (level (risk_assessment o))));
                 (u "signals", PyList (map PyStr (signals (risk_assessment o)))) ]);
      (u "clinical_report",
        PyDict [ (u "required", PyBool (required (clinical_report o)));
                 (u "summary", PyStr (summary (clinical_report o))) ]) ].

(* ================================================================== *)
(** * 3. Prompt helpers, 4. the fallback payload *)
(* ================================================================== *)

Definition newline : pystr := [10%N].
Definition indent8 : pystr := u "        ".

(** The template [load_prompt] returns when the prompt file does not exist. *)
Definition default_template : pystr :=
  newline ++ indent8
  ++ u "Você é uma IA de Psicanálise. Analise o texto abaixo e retorne APENAS um JSON válido."
  ++ newline ++ indent8 ++ u "Texto: {INPUT}"
  ++ newline ++ indent8.

(** [mock_response] of [call_model]. *)
Definition mock_response : PyVal :=
  PyDict
    [ (u "analysis", PyStr (u "O paciente apresenta uma clara manifestação de resistência transferencial através do manejo do tempo e da palavra. O atraso recorrente ('sempre') configura-se como um acting out, uma tentativa de controlar o setting analítico ou evitar o contato com conteúdos angustiantes. A percepção de que faz isso 'de propósito' sugere um insight incipiente sobre a determinação inconsciente de seus atos e uma possível formação de compromisso sintomática. O silêncio que se segue à chegada atua como uma barreira secundária, reforçando a recusa em se entregar à associação livre. Essa dinâmica aponta para uma dificuldade em lidar com a demanda do Outro, possivelmente expressando hostilidade latente ou medo da dependência."));
      (u "themes",
        PyList [ PyStr (u "Resistência"); PyStr (u "Transferência");
                 PyStr (u "Controle"); PyStr (u "Silêncio"); PyStr (u "Tempo") ]);
      (u "signifiers",
        PyList [ PyStr (u "Atrasado"); PyStr (u "Propósito"); PyStr (u "Silêncio");
                 PyStr (u "Sempre"); PyStr (u "Chego") ]);
      (u "hypotheses",
        PyList
          [ PyStr (u "O atraso funciona como uma defesa contra a angústia de castração ou vulnerabilidade na sessão.");
            PyStr (u "O silêncio é uma extensão da agressividade passiva manifestada pelo atraso.");
            PyStr (u "A intencionalidade percebida indica um gozo na manutenção do sintoma de evitação.") ]);
      (u "questions",
        PyList
          [ PyStr (u "O que você sente ou pensa nos minutos exatos antes de sair para a sessão?");
            PyStr (u "A quem esse 'propósito' de se atrasar estaria endereçado?");
            PyStr (u "O silêncio, quando você chega, é vivido como vazio ou como excesso de pensamentos?");
            PyStr (u "Existem outras situações em sua vida onde o atraso é uma regra?") ]);
      (u "risk_assessment",
        PyDict
          [ (u "level", PyStr (u "baixo"));
            (u "signals",
              PyList
                [ PyStr (u "Ausência de ideação suicida ou agressiva explícita");
                  PyStr (u "Discurso focado em mecanismos de defesa neuróticos") ]) ]);
      (u "clinical_report",
        PyDict
          [ (u "required", PyBool false);
            (u "summary", PyStr (u "Paciente relata padrão de resistência caracterizado por atrasos sistemáticos e mutismo subsequente, reconhecendo certa intencionalidade no ato.")) ]) ].

(** What a call of the program yields: the value it returns, or the text
    [str(e)] of the [Exception] it raises. *)
Inductive Outcome (A : Type) :=
| Return (a : A)
| Raise (e : pystr).
Arguments Raise {A} e.

(* ================================================================== *)
(** * The schema validator behind [ClinicalOutput.model_validate_json] *)
(* ================================================================== *)

(** What the lax reading of a JSON number as a [bool] gives. *)
Inductive NumberAsBool :=
| IsBool (b : bool)
| Unparsable
| NotBoolean.

Definition ascii_lower (c : N) : N :=
  if ((65 <=? c) && (c <=? 90))%N then (c + 32)%N else c.

(** The lax reading of a string as a [bool]. *)
Definition str_as_bool (s : pystr) : option bool :=
  let l := map ascii_lower s in
  if existsb (pystr_eqb l) [u "0"; u "off"; u "f"; u "false"; u "n"; u "no"]
  then Some false
  else if existsb (pystr_eqb l) [u "1"; u "on"; u "t"; u "true"; u "y"; u "yes"]
  then Some true
  else None.

Definition failure {A} (t : ErrorType) : Validated A := Invalid [mkLineError t []].

(** A [str] field: only a JSON string is one. *)
Definition validate_str (j : JsonValue) : Validated pystr :=
  match j with
  | JStr s => Valid s
  | _ => failure string_type
  end.

(** The items of a list of [str], from position [index] on: the items that
    are strings, and the errors of the others, each under its position. *)
Fixpoint validate_items (index : nat) (items : list JsonValue)
  : list pystr * list LineError :=
  match items with
  | [] => ([], [])
  | j :: rest =>
      let '(out, errs) := validate_items (S index) rest in
      match validate_str j with
      | Valid s => (s :: out, errs)
      | Invalid es => (out, map (with_outer_location (LocIndex index)) es ++ errs)
      end
  end.

Definition exceeds (bound : option nat) (n : nat) : bool :=
  match bound with
  | Some m => (m <? n)%nat
  | None => false
  end.

Definition falls_short (bound : option nat) (n : nat) : bool :=
  match bound with
  | Some m => (n <? m)%nat
  | None => false
  end.

(** A [List[str]] field with [min_length] and [max_length].  A list over
    the maximum is refused as soon as the count passes it, whatever its
    items; the minimum is checked on a list whose items are all valid. *)
Definition validate_list (min_length max_length : option nat) (j : JsonValue)
  : Validated (list pystr) :=
  match j with
  | JArr items =>
      let n := List.length items in
      if exceeds max_length n then
        failure (too_long (match max_length with Some m => m | None => 0%nat end) n)
      else
        let '(out, errs) := validate_items 0 items in
        match errs with
        | _ :: _ => Invalid errs
        | [] =>
            if falls_short min_length n then
              failure (too_short (match min_length with Some m => m | None => 0%nat end)
                              (List.length out))
            else Valid out
        end
  | _ => failure list_type
  end.

(** [Literal["baixo", "médio", "alto"]]: an exact match of a string. *)
Definition validate_level (j : JsonValue) : Validated RiskLevel :=
  match j with
  | JStr s =>
      match find (fun l => pystr_eqb (level_str l) s) risk_levels with
      | Some l => Valid l
      | None => failure literal_error
      end
  | _ => failure literal_error
  end.

(** The [analysis] field: a [str], then the field validator; the
    [ValueError] it raises becomes a line error. *)
Definition validate_analysis (j : JsonValue) : Validated pystr :=
  match validate_str j with
  | Valid s =>
      match validate_analysis_length s with
      | Accepted v => Valid v
      | ValueError msg => failure (value_error msg)
      end
  | Invalid errs => Invalid errs
  end.

(** One field of a model: a key the object lacks is a [missing] error, and
    the errors of its value are located under the field's name. *)
Definition validate_field {A} (name : pystr) (members : list (pystr * JsonValue))
    (validator : JsonValue -> Validated A) : Validated A :=
  match lookup name members with
  | None => Invalid [mkLineError missing [LocKey name]]
  | Some j =>
      match validator j with
      | Valid a => Valid a
      | Invalid errs => Invalid (map (with_outer_location (LocKey name)) errs)
      end
  end.

(* ================================================================== *)
(** * The constraints of the data model, as the specification words them *)
(* ================================================================== *)

(** A word: a non-empty text with no space character in it. *)
Definition is_word (t : pystr) : Prop :=
  t <> [] /\ forallb (fun c => negb (is_space c)) t = true.


(** A [ClinicalOutput] is valid when the word count of [analysis] lies in
    [40, 200], [themes] has 3 to 6 items, [signifiers] 3 to 8, [hypotheses]
    2 to 4, [questions] 3 to 6, and [level] is one of the three values. *)
Definition satisfies_data_model (o : ClinicalOutput) : Prop :=
  (40 <= word_count (analysis o) <= 200)%nat
  /\ (3 <= List.length (themes o) <= 6)%nat
  /\ (3 <= List.length (signifiers o) <= 8)%nat
  /\ (2 <= List.length (hypotheses o) <= 4)%nat
  /\ (3 <= List.length (questions o) <= 6)%nat
  /\ In (level_str (level (risk_assessment o))) [u "baixo"; u "médio"; u "alto"].


Fixpoint strs_of (items : list JsonValue) : option (list pystr) :=
  match items with
  | [] => Some []
  | JStr s :: rest =>
      match strs_of rest with
      | Some l => Some (s :: l)
      | None => None
      end
  | _ :: _ => None
  end.

Definition get_str (name : pystr) (members : list (pystr * JsonValue)) : option pystr :=
  match lookup name members with
  | Some (JStr s) => Some s
  | _ => None
  end.

Definition get_strs (name : pystr) (members : list (pystr * JsonValue))
  : option (list pystr) :=
  match lookup name members with
  | Some (JArr items) => strs_of items
  | _ => None
  end.


Definition get_obj (name : pystr) (members : list (pystr * JsonValue))
  : option (list (pystr * JsonValue)) :=
  match lookup name members with
  | Some (JObj m) => Some m
  | _ => None
  end.




(** The text [validation_node] writes for one line error. *)
Definition error_text (err : LineError) : pystr :=
  u "Validation Error: " ++ err_msg err ++ u " at " ++ repr_loc (err_loc err).

(** A validation result that, when it is a failure, names at least one
    error. *)
Definition names_an_error {A} (v : Validated A) : Prop :=
  match v with
  | Valid _ => True
  | Invalid errs => errs <> []
  end.

(** The number of entries of [results] with [ok] true. *)
Definition count_ok (results : list ItemResult) : nat :=
  List.length (filter ok results).

(** The entry [main] records for an item whose processing raised [e]. *)
Definition fault_result (fname e : pystr) : ItemResult :=
  mkItemResult fname false [u "Runtime Error: " ++ e] None.

(** [n] copies of a word, and the text that writes them with single spaces. *)
Definition sample_words (n : nat) : list pystr := repeat (u "palavra") n.
Definition sample_analysis (n : nat) : pystr := join (u " ") (sample_words n).

(* ================================================================== *)
(** * Sample worlds *)
(* ================================================================== *)

(** Concrete readers and worlds on which the pipeline can be run. *)

(** A wording of the reader's complaint: right for the empty text and for a
    text whose first character begins no value, which is all the samples
    below need. *)
Definition sample_json_error_text (text : pystr) : pystr :=
  match text with
  | [] => u "EOF while parsing a value at line 1 column 0"
  | _ :: _ => u "expected value at line 1 column 1"
  end.

(** A lax reading of numbers that knows [1] and [0] only. *)
Definition sample_number_as_bool (lexeme : pystr) : NumberAsBool :=
  if pystr_eqb lexeme (u "1") then IsBool true
  else if pystr_eqb lexeme (u "0") then IsBool false
  else Unparsable.

(** A machine with no prompt file and no network: the world has no state. *)
Definition offline_exists (path : pystr) (w : unit) : Outcome bool * unit :=
  (Return false, w).

Definition offline_read_text (path : pystr) (w : unit) : Outcome pystr * unit :=
  (Raise (u "[Errno 2] No such file or directory"), w).

Definition offline_chat (prompt : pystr) (w : unit) : Outcome (option pystr) * unit :=
  (Raise (u "Connection error."), w).

(** A machine whose prompt file is there but whose second read of it
    fails, and with no network; the world counts the reads. *)
Definition flaky_exists (path : pystr) (w : nat) : Outcome bool * nat :=
  (Return true, w).

Definition flaky_read_text (path : pystr) (w : nat) : Outcome pystr * nat :=
  match w with
  | 1%nat => (Raise (u "[Errno 5] Input/output error"), S w)
  | _ => (Return (u "Analise: {INPUT}"), S w)
  end.

Definition flaky_chat (prompt : pystr) (w : nat) : Outcome (option pystr) * nat :=
  (Raise (u "Connection error."), w).

(** A service that answers with the text it is given, after the colon of
    the sample prompt. *)
Definition echo_chat (prompt : pystr) (w : nat) : Outcome (option pystr) * nat :=
  (Return (Some (skipn 9 prompt)), w).

(** The document a reader gets back from the serialized form of a Python
    value. *)
Fixpoint json_of_py (v : PyVal) : JsonValue :=
  match v with
  | PyStr s => JStr s
  | PyBool b => JBool b
  | PyList items => JArr (map json_of_py items)
  | PyDict entries => JObj (map (fun kv => (fst kv, json_of_py (snd kv))) entries)
  end.



(** The state of the sample input once a stage has written [raw]. *)
Definition sample_state (raw : option pystr) : ClinicalState :=
  mkClinicalState (u "exemplo_paciente.txt") (u "Eu sempre chego atrasado.") (u "v2")
    (Some raw) None [].

(** Three inputs of a batch. *)
Definition three_items : list (pystr * pystr) :=
  [ (u "a.txt", u "Eu sempre chego atrasado.");
    (u "b.txt", u "Parece que faço isso de propósito.");
    (u "c.txt", u "Quando chego, fico em silêncio.") ].

(* ================================================================== *)
(** * Further vocabulary *)
(* ================================================================== *)

(** The names of the fields of [ClinicalOutput], in declaration order. *)
Definition field_names : list pystr :=
  [ u "analysis"; u "themes"; u "signifiers"; u "hypotheses"; u "questions";
    u "risk_assessment"; u "clinical_report" ].

(** The model [o] holds the values the document has under the names of the
    schema, unchanged ([required] apart, which the lax mode may read from a
    string or a number). *)
Definition reads_from (members : list (pystr * JsonValue)) (o : ClinicalOutput) : Prop :=
  get_str (u "analysis") members = Some (analysis o)
  /\ get_strs (u "themes") members = Some (themes o)
  /\ get_strs (u "signifiers") members = Some (signifiers o)
  /\ get_strs (u "hypotheses") members = Some (hypotheses o)
  /\ get_strs (u "questions") members = Some (questions o)
  /\ (exists r, get_obj (u "risk_assessment") members = Some r
                /\ get_str (u "level") r = Some (level_str (level (risk_assessment o)))
                /\ get_strs (u "signals") r = Some (signals (risk_assessment o)))
  /\ (exists c, get_obj (u "clinical_report") members = Some c
                /\ get_str (u "summary") c = Some (summary (clinical_report o))).

(** [old] occurs in [s]: it is a prefix of [s] or of one of its tails. *)
Fixpoint occurs (old s : pystr) : bool :=
  starts_with old s
  || match s with
     | [] => false
     | _ :: s' => occurs old s'
     end.

(** The prompt the built-in template gives for an input text. *)
Definition default_prompt (text : pystr) : pystr :=
  newline ++ indent8
  ++ u "Você é uma IA de Psicanálise. Analise o texto abaixo e retorne APENAS um JSON válido."
  ++ newline ++ indent8 ++ u "Texto: " ++ text
  ++ newline ++ indent8.

(** The nesting of a Python value: the number of containers around its
    innermost part. *)
Fixpoint py_depth (v : PyVal) : nat :=
  match v with
  | PyStr _ => 0
  | PyBool _ => 0
  | PyList items => S (fold_right Nat.max 0%nat (map py_depth items))
  | PyDict entries =>
      S (fold_right Nat.max 0%nat (map (fun kv => py_depth (snd kv)) entries))
  end.

(** The entry of an item that went through the fallback. *)
Definition fallback_result (fname : pystr) : ItemResult :=
  mkItemResult fname true [] (Some mock_response).

(** A machine whose prompt file holds no placeholder, and whose model
    service answers with the prompt it was given. *)
Definition plain_exists (path : pystr) (w : unit) : Outcome bool * unit :=
  (Return true, w).

Definition plain_read_text (path : pystr) (w : unit) : Outcome pystr * unit :=
  (Return (u "Analise o paciente."), w).

Definition parrot_chat (prompt : pystr) (w : unit) : Outcome (option pystr) * unit :=
  (Return (Some prompt), w).

(** A code point a text can hand to the reader: a Unicode scalar value,
    that is, no surrogate and nothing past the last plane. *)
Definition is_scalar (c : N) : bool :=
  ((c <? 1114112) && negb ((55296 <=? c) && (c <=? 57343)))%N.

(** The texts of a Python value: its strings and the keys of its
    dictionaries. *)
Fixpoint py_texts (v : PyVal) : list pystr :=
  match v with
  | PyStr s => [s]
  | PyBool _ => []
  | PyList items => flat_map py_texts items
  | PyDict entries => flat_map (fun kv => fst kv :: py_texts (snd kv)) entries
  end.

(** Every text of the value is made of scalar values, so that its
    serialized form can be encoded and passed to the reader. *)
Definition encodable (v : PyVal) : bool :=
  forallb (forallb is_scalar) (py_texts v).


(** A model that respects the data model; its texts hold a quote, a
    backslash, a line break and a tabulation, which the serializer
    escapes. *)
Definition sample_output : ClinicalOutput :=
  mkClinicalOutput
    (sample_analysis 40)
    [u "Resistência"; u "Tempo"; [34; 115; 101; 109; 112; 114; 101; 34]%N]
    [u "Atrasado"; u "Sempre"; [67; 104; 101; 103; 111; 92; 9]%N]
    [u "Defesa."; [69; 118; 105; 116; 97; 10; 231; 227; 111]%N]
    [u "Por quê?"; u "Quando?"; u "Com quem?"]
    (mkRiskAssessment medio [])
    (mkClinicalReport true (u "Resumo.")).

(** A model service that answers every request with the serialized form
    of [sample_output]. *)
Definition steady_chat (prompt : pystr) (w : unit) : Outcome (option pystr) * unit :=
  (Return (Some (dumps (model_dump sample_output))), w).


Section Pipeline.

(** The reader's text for a document it cannot parse (what went wrong and
    where); its wording belongs to the reader. *)
Variable json_error_text : pystr -> pystr.

(** The lax reading of a JSON number as a [bool], by its lexeme; it goes
    through the reader's conversion of the number to a machine integer or
    a double. *)
Variable number_as_bool : pystr -> NumberAsBool.

(** A [bool] field, read from JSON in lax mode. *)
Definition validate_bool (j : JsonValue) : Validated bool :=
  match j with
  | JBool b => Valid b
  | JStr s =>
      match str_as_bool s with
      | Some b => Valid b
      | None => failure bool_parsing
      end
  | JNum lexeme =>
      match number_as_bool lexeme with
      | IsBool b => Valid b
      | Unparsable => failure bool_parsing
      | NotBoolean => failure bool_type
      end
  | _ => failure bool_type
  end.

(** [RiskAssessment]. *)
Definition validate_RiskAssessment (j : JsonValue) : Validated RiskAssessment :=
  match j with
  | JObj members =>
      let l := validate_field (u "level") members validate_level in
      let s := validate_field (u "signals") members (validate_list None None) in
      match l, s with
      | Valid l', Valid s' => Valid (mkRiskAssessment l' s')
      | _, _ => Invalid (errors_of l ++ errors_of s)
      end
  | _ => failure model_type
  end.

(** [ClinicalReport]. *)
Definition validate_ClinicalReport (j : JsonValue) : Validated ClinicalReport :=
  match j with
  | JObj members =>
      let r := validate_field (u "required") members validate_bool in
      let s := validate_field (u "summary") members validate_str in
      match r, s with
      | Valid r', Valid s' => Valid (mkClinicalReport r' s')
      | _, _ => Invalid (errors_of r ++ errors_of s)
      end
  | _ => failure model_type
  end.

(** [ClinicalOutput]: every field is validated, in declaration order, and
    the errors of all of them are gathered; keys the schema does not name
    are ignored. *)
Definition validate_ClinicalOutput (j : JsonValue) : Validated ClinicalOutput :=
  match j with
  | JObj members =>
      let a := validate_field (u "analysis") members validate_analysis in
      let t := validate_field (u "themes") members (validate_list (Some 3) (Some 6))%nat in
      let s := validate_field (u "signifiers") members (validate_list (Some 3) (Some 8))%nat in
      let h := validate_field (u "hypotheses") members (validate_list (Some 2) (Some 4))%nat in
      let q := validate_field (u "questions") members (validate_list (Some 3) (Some 6))%nat in
      let r := validate_field (u "risk_assessment") members validate_RiskAssessment in
      let c := validate_field (u "clinical_report") members validate_ClinicalReport in
      match a, t, s, h, q, r, c with
      | Valid a', Valid t', Valid s', Valid h', Valid q', Valid r', Valid c' =>
          Valid (mkClinicalOutput a' t' s' h' q' r' c')
      | _, _, _, _, _, _, _ =>
          Invalid (errors_of a ++ errors_of t ++ errors_of s ++ errors_of h
                   ++ errors_of q ++ errors_of r ++ errors_of c)
      end
  | _ => failure model_type
  end.

(** The errors of the seven fields of a document, in declaration order. *)
Definition field_errors (members : list (pystr * JsonValue)) : list LineError :=
  errors_of (validate_field (u "analysis") members validate_analysis)
  ++ errors_of (validate_field (u "themes") members (validate_list (Some 3) (Some 6))%nat)
  ++ errors_of (validate_field (u "signifiers") members (validate_list (Some 3) (Some 8))%nat)
  ++ errors_of (validate_field (u "hypotheses") members (validate_list (Some 2) (Some 4))%nat)
  ++ errors_of (validate_field (u "questions") members (validate_list (Some 3) (Some 6))%nat)
  ++ errors_of (validate_field (u "risk_assessment") members validate_RiskAssessment)
  ++ errors_of (validate_field (u "clinical_report") members validate_ClinicalReport).

(** [ClinicalOutput.model_validate_json(raw)]: the model, or what is
    raised.  An input that is no text, a text that is no JSON document and
    a document that breaks the schema all raise a [ValidationError]. *)
Definition model_validate_json (raw : option pystr) : Raised + ClinicalOutput :=
  match raw with
  | None => inl (ValidationError [mkLineError json_type []])
  | Some text =>
      match parse_json text with
      | None =>
          inl (ValidationError [mkLineError (json_invalid (json_error_text text)) []])
      | Some j =>
          match validate_ClinicalOutput j with
          | Valid o => inr o
          | Invalid errs => inl (ValidationError errs)
          end
      end
  end.

(* ================================================================== *)
(** * 5. The nodes *)
(* ================================================================== *)

(** [validation_node]: the three handlers of its [try], in their order. *)
Definition validation_node (state : ClinicalState) : Update :=
  let raw := get_raw_response state (u "") in
  let '(parsed_obj, errors) :=
    match model_validate_json raw with
    | inr obj => (Some obj, [])
    | inl (ValidationError errs) =>
        (None,
         map (fun err => u "Validation Error: " ++ err_msg err ++ u " at "
                         ++ repr_loc (err_loc err)) errs)
    | inl (JSONDecodeError text) => (None, [u "Erro de Parse JSON: " ++ text])
    | inl (OtherException text) => (None, [u "Erro Desconhecido: " ++ text])
    end in
  mkUpdate None (Some parsed_obj) (Some errors).

(** The world outside the program: the prompt files and the model service. *)
Variable World : Type.

(** A call of the program in that world. *)
Definition M (A : Type) : Type := World -> Outcome A * World.

Definition ret {A} (a : A) : M A := fun w => (Return a, w).

Definition bind {A B} (m : M A) (k : A -> M B) : M B :=
  fun w =>
    match m w with
    | (Return a, w') => k a w'
    | (Raise e, w') => (Raise e, w')
    end.

(** [try: body / except Exception as e: handler(e)]. *)
Definition try_except {A} (body : M A) (handler : pystr -> M A) : M A :=
  fun w =>
    match body w with
    | (Return a, w') => (Return a, w')
    | (Raise e, w') => handler e w'
    end.

Notation "x <- m ;; k" := (bind m (fun x => k))
  (at level 61, m at next level, right associativity).
Notation "' p <- m ;; k" := (bind m (fun x => let 'p := x in k))
  (at level 61, p pattern, m at next level, right associativity).

(** [path.exists()] and [path.read_text(encoding="utf-8")] on a file of the
    prompts directory, by its name. *)
Variable path_exists : pystr -> M bool.
Variable path_read_text : pystr -> M pystr.

(** The body of the [try] of [call_model]: the request to the model
    service and the reading of [choices[0].message.content], which is a text
    or [None]. *)
Variable chat_completion : pystr -> M (option pystr).

Definition load_prompt (prompt_version : pystr) : M pystr :=
  let path := u "prompt_" ++ prompt_version ++ u ".txt" in
  found <- path_exists path ;;
  if negb found then ret default_template
  else path_read_text path.

(** [call_model]: the content the service returned, or the serialized
    [mock_response] when the [try] raised. *)
Definition call_model (prompt : pystr) : M (option pystr) :=
  try_except
    (chat_completion prompt)
    (fun e => ret (Some (dumps mock_response))).

Definition generation_node (state : ClinicalState) : M Update :=
  prompt_template <- load_prompt (prompt_version state) ;;
  let full_prompt := replace prompt_template (u "{INPUT}") (input_text state) in
  response_str <- call_model full_prompt ;;
  ret (mkUpdate (Some response_str) None None).

(* ================================================================== *)
(** * 6. The graph *)
(* ================================================================== *)

(** The compiled graph: its nodes along the edges from the entry point to
    [END]. *)
Definition build_graph : list (ClinicalState -> M Update) :=
  [ generation_node; fun state => ret (validation_node state) ].

(** [app.invoke(state)]: each node in turn, its [Dict] written over the
    state. *)
Fixpoint invoke (app : list (ClinicalState -> M Update)) (state : ClinicalState)
  : M ClinicalState :=
  match app with
  | [] => ret state
  | node :: rest =>
      upd <- node state ;;
      invoke rest (apply_update state upd)
  end.

(* ================================================================== *)
(** * 7. Main execution *)
(* ================================================================== *)

Definition initial_state (fname text prompt_version : pystr) : ClinicalState :=
  mkClinicalState fname text prompt_version (Some None) None [].

(** The [for] loop of [main] over the items still to process, with
    [results] and [ok_count] as they stand.  Inside the [try] only
    [app.invoke] can raise: what follows it reads the final state and dumps
    a validated model. *)
Fixpoint main_loop (app : list (ClinicalState -> M Update)) (prompt_version : pystr)
    (items : list (pystr * pystr)) (results : list ItemResult) (ok_count : Z)
  : M (list ItemResult * Z) :=
  match items with
  | [] => ret (results, ok_count)
  | (fname, text) :: rest =>
      ' (results', ok_count') <-
        try_except
          (final_state <- invoke app (initial_state fname text prompt_version) ;;
           let output_obj := parsed_output final_state in
           let errors := errors final_state in
           let is_ok :=
             match output_obj with Some _ => true | None => false end
             && (List.length errors =? 0)%nat in
           let ok_count := if is_ok then (ok_count + 1)%Z else ok_count in
           let final_output :=
             if is_ok then option_map model_dump output_obj else None in
           ret (results ++ [mkItemResult fname is_ok errors final_output], ok_count))
          (fun e =>
             ret (results ++ [mkItemResult fname false [u "Runtime Error: " ++ e] None],
                  ok_count)) ;;
      main_loop app prompt_version rest results' ok_count'
  end.

(** [main], from the items [read_inputs] returned to the [payload] handed
    to [save_results]. *)
Definition main (items : list (pystr * pystr)) (prompt_version : pystr) : M RunReport :=
  let app := build_graph in
  ' (results, ok_count) <- main_loop app prompt_version items [] 0%Z ;;
  ret (mkRunReport prompt_version
         (Z.of_nat (List.length results))
         (mkMetrics ok_count (Z.of_nat (List.length results) - ok_count))
         results).

(** The entry the loop body appends for an item, by what [app.invoke]
    yielded for it. *)
Definition item_entry (fname : pystr) (r : Outcome ClinicalState) : ItemResult :=
  match r with
  | Return final_state =>
      let output_obj := parsed_output final_state in
      let errors := errors final_state in
      let is_ok :=
        match output_obj with Some _ => true | None => false end
        && (List.length errors =? 0)%nat in
      mkItemResult fname is_ok errors
        (if is_ok then option_map model_dump output_obj else None)
  | Raise e => fault_result fname e
  end.

(** The entries of a batch, item by item, each item run in the world the
    one before it left. *)
Fixpoint run_items (app : list (ClinicalState -> M Update)) (prompt_version : pystr)
    (items : list (pystr * pystr)) (w : World) : list ItemResult * World :=
  match items with
  | [] => ([], w)
  | (fname, text) :: rest =>
      let '(r, w1) := invoke app (initial_state fname text prompt_version) w in
      let '(entries, w') := run_items app prompt_version rest w1 in
      (item_entry fname r :: entries, w')
  end.

(* ================================================================== *)
(** * Facts about text *)
(* ================================================================== *)

Lemma split_from_word (t rest cur : pystr) :
  forallb (fun c => negb (is_space c)) t = true ->
  split_from (t ++ rest) cur = split_from rest (rev t ++ cur).
Proof.
  revert cur.
  induction t as [|c t IH]; intros cur Hw; simpl in *.
  - reflexivity.
  - apply andb_prop in Hw as [Hc Ht].
    apply negb_true_iff in Hc. rewrite Hc.
    rewrite IH by assumption.
    now rewrite <- app_assoc.
Qed.

Lemma split_word_then (t rest : pystr) :
  is_word t ->
  split (t ++ u " " ++ rest) = t :: split rest.
Proof.
  intros [Hne Hw]. unfold split.
  rewrite split_from_word by assumption.
  rewrite app_nil_r. change (u " " ++ rest) with (32%N :: rest). simpl.
  destruct (rev t) eqn:E.
  - apply (f_equal (@rev N)) in E. rewrite rev_involutive in E. now elim Hne.
  - rewrite <- E, rev_involutive. reflexivity.
Qed.

Lemma split_word (t : pystr) : is_word t -> split t = [t].
Proof.
  intros [Hne Hw]. unfold split.
  rewrite <- (app_nil_r t) at 1.
  rewrite split_from_word by assumption. simpl. rewrite app_nil_r.
  destruct (rev t) eqn:E.
  - apply (f_equal (@rev N)) in E. rewrite rev_involutive in E. now elim Hne.
  - rewrite <- E, rev_involutive. reflexivity.
Qed.

(** Words written with one space between them are split back into
    themselves. *)
Lemma split_join_words (tokens : list pystr) :
  Forall is_word tokens -> split (join (u " ") tokens) = tokens.
Proof.
  induction 1 as [|t ts Ht Hts IH].
  - reflexivity.
  - destruct ts as [|t2 ts].
    + simpl. now apply split_word.
    + change (join (u " ") (t :: t2 :: ts))
        with (t ++ u " " ++ join (u " ") (t2 :: ts)).
      rewrite split_word_then by assumption.
      now rewrite IH.
Qed.

(* ================================================================== *)
(** * Facts about the JSON reader *)
(* ================================================================== *)

Lemma skip_ws_length (s : pystr) : (List.length (skip_ws s) <= List.length s)%nat.
Proof.
  induction s as [|c r IH]; simpl; [lia |].
  destruct (is_json_ws c); simpl; lia.
Qed.

Lemma parse_string_tail_shorter_upto (n : nat) :
  forall inp acc s rest,
    (List.length inp <= n)%nat ->
    parse_string_tail inp acc = Some (s, rest) ->
    (List.length rest < List.length inp)%nat.
Proof.
  induction n as [|n IH]; intros inp acc s rest Hn H.
  - destruct inp; [discriminate | simpl in Hn; lia].
  - destruct inp as [|c r]; [discriminate |].
    cbn [parse_string_tail] in H. cbn [List.length] in Hn.
    destruct (c =? 34)%N; [injection H as _ <-; cbn [List.length]; lia |].
    destruct (c =? 92)%N.
    + destruct r as [|e r1]; [discriminate |].
      destruct (e =? 117)%N.
      * destruct r1 as [|h1 [|h2 [|h3 [|h4 r5]]]]; try discriminate.
        destruct (hex4 h1 h2 h3 h4) as [cp|]; [| discriminate].
        destruct (is_high_surrogate cp).
        -- destruct r5 as [|b [|m [|l1 [|l2 [|l3 [|l4 r11]]]]]]; try discriminate.
           destruct ((b =? 92) && (m =? 117))%N; [| discriminate].
           destruct (hex4 l1 l2 l3 l4) as [lo|]; [| discriminate].
           destruct (is_low_surrogate lo); [| discriminate].
           apply IH in H; cbn [List.length] in *; lia.
        -- destruct (is_low_surrogate cp); [discriminate |].
           apply IH in H; cbn [List.length] in *; lia.
      * destruct (unescape e); [| discriminate].
        apply IH in H; cbn [List.length] in *; lia.
    + destruct (c <? 32)%N; [discriminate |].
      apply IH in H; cbn [List.length] in *; lia.
Qed.

(** Reading a string consumes input. *)
Lemma parse_string_tail_shorter (inp acc s rest : pystr) :
  parse_string_tail inp acc = Some (s, rest) ->
  (List.length rest < List.length inp)%nat.
Proof. apply (@parse_string_tail_shorter_upto (List.length inp)). lia. Qed.

Lemma take_digits_length (s : pystr) :
  (List.length (snd (take_digits s)) <= List.length s)%nat.
Proof.
  induction s as [|c r IH]; simpl; [lia |].
  destruct (is_digit c); [| simpl; lia].
  destruct (take_digits r); simpl in *; lia.
Qed.

Lemma starts_with_length (p s : pystr) :
  starts_with p s = true -> (List.length p <= List.length s)%nat.
Proof.
  revert s. induction p as [|a p IH]; intros [|b s] H; simpl in *; try lia; try discriminate.
  apply andb_prop in H as [_ H]. apply IH in H. lia.
Qed.

Lemma strip_prefix_shorter (p s r : pystr) :
  p <> [] -> strip_prefix p s = Some r -> (List.length r < List.length s)%nat.
Proof.
  unfold strip_prefix. intros Hp H.
  destruct (starts_with p s) eqn:E; [| discriminate].
  injection H as <-. apply starts_with_length in E.
  rewrite length_skipn. destruct p; [now elim Hp | simpl in *; lia].
Qed.

Lemma take_sign_length (inp : pystr) :
  (List.length (snd (take_sign inp)) <= List.length inp)%nat.
Proof.
  unfold take_sign. destruct inp as [|c r]; simpl; [lia |].
  destruct (c =? 45)%N; simpl; lia.
Qed.

Lemma take_fraction_length (inp frac rest : pystr) :
  take_fraction inp = Some (frac, rest) -> (List.length rest <= List.length inp)%nat.
Proof.
  unfold take_fraction. destruct inp as [|c r]; [intros [= _ <-]; simpl; lia |].
  destruct (c =? 46)%N; [| intros [= _ <-]; simpl; lia].
  pose proof (take_digits_length r) as Hd.
  destruct (take_digits r) as [[|d ds] r']; [discriminate |].
  intros [= _ <-]. simpl in *. lia.
Qed.

Lemma take_exponent_length (inp ex rest : pystr) :
  take_exponent inp = Some (ex, rest) -> (List.length rest <= List.length inp)%nat.
Proof.
  unfold take_exponent. destruct inp as [|e r]; [intros [= _ <-]; simpl; lia |].
  destruct ((e =? 101) || (e =? 69))%N; [| intros [= _ <-]; simpl; lia].
  set (sg := match r with
             | s :: r'' => if ((s =? 43) || (s =? 45))%N then ([s], r'') else ([], r)
             | [] => ([], r)
             end).
  assert (Hs : (List.length (snd sg) <= List.length r)%nat).
  { subst sg. destruct r as [|s r'']; [simpl; lia |].
    destruct ((s =? 43) || (s =? 45))%N; simpl; lia. }
  destruct sg as [esign r']. simpl in Hs.
  pose proof (take_digits_length r') as Hd.
  destruct (take_digits r') as [[|d ds] r'']; [discriminate |].
  intros [= _ <-]. simpl in *. lia.
Qed.

Lemma parse_number_shorter (inp lexeme rest : pystr) :
  parse_number inp = Some (lexeme, rest) ->
  (List.length rest < List.length inp)%nat.
Proof.
  unfold parse_number.
  destruct (strip_prefix (u "NaN") inp) as [r|] eqn:E1.
  { intros [= _ <-]. eapply strip_prefix_shorter; [| exact E1]. discriminate. }
  destruct (strip_prefix (u "Infinity") inp) as [r|] eqn:E2.
  { intros [= _ <-]. eapply strip_prefix_shorter; [| exact E2]. discriminate. }
  destruct (strip_prefix (u "-Infinity") inp) as [r|] eqn:E3.
  { intros [= _ <-]. eapply strip_prefix_shorter; [| exact E3]. discriminate. }
  pose proof (take_sign_length inp) as Hsign.
  destruct (take_sign inp) as [sign r0]. simpl in Hsign.
  destruct r0 as [|d r1]; [discriminate |].
  destruct (negb (is_digit d)); [discriminate |].
  set (ip := if (d =? 48)%N then ([d], r1)
             else let '(ds, r') := take_digits r1 in (d :: ds, r')).
  assert (Ei : (List.length (snd ip) <= List.length r1)%nat).
  { subst ip. destruct (d =? 48)%N; [simpl; lia |].
    pose proof (take_digits_length r1) as Hd.
    destruct (take_digits r1) as [ds r']. exact Hd. }
  destruct ip as [int_part r2]. simpl in Ei.
  destruct (take_fraction r2) as [[frac_part r3]|] eqn:Ef; [| discriminate].
  apply take_fraction_length in Ef.
  destruct (take_exponent r3) as [[exp_part r4]|] eqn:Ee; [| discriminate].
  apply take_exponent_length in Ee.
  intros [= _ <-]. simpl in *. lia.
Qed.

Section ContainerFacts.

Variable parse_inner : pystr -> option (JsonValue * pystr).
Hypothesis parse_inner_shorter :
  forall inp v rest, parse_inner inp = Some (v, rest) ->
                     (List.length rest < List.length inp)%nat.

Lemma parse_items_shorter (fuel : nat) :
  forall inp acc items rest,
    parse_items parse_inner fuel inp acc = Some (items, rest) ->
    (List.length rest < List.length inp)%nat.
Proof.
  induction fuel as [|fuel IH]; intros inp acc items rest H; [discriminate |].
  simpl in H.
  destruct (parse_inner inp) as [[v r0]|] eqn:Ev; [| discriminate].
  apply parse_inner_shorter in Ev.
  pose proof (skip_ws_length r0) as Hw.
  destruct (skip_ws r0) as [|c r]; [discriminate |].
  destruct (c =? 44)%N.
  - apply IH in H. pose proof (skip_ws_length r). simpl in *. lia.
  - destruct (c =? 93)%N; [| discriminate].
    injection H as _ <-. simpl in *. lia.
Qed.

(** The loop over the items never stops for lack of fuel: any fuel from
    the length of the input on gives the same result. *)
Lemma parse_items_fuel (fuel : nat) :
  forall fuel' inp acc,
    (List.length inp <= fuel)%nat -> (List.length inp <= fuel')%nat ->
    parse_items parse_inner fuel inp acc = parse_items parse_inner fuel' inp acc.
Proof.
  induction fuel as [|fuel IH]; intros fuel' inp acc H H'.
  - destruct inp; [| simpl in H; lia].
    destruct fuel'; [reflexivity |]. simpl.
    destruct (parse_inner []) as [[v r0]|] eqn:Ev; [| reflexivity].
    apply parse_inner_shorter in Ev. simpl in Ev. lia.
  - destruct fuel' as [|fuel'].
    + destruct inp; [| simpl in H'; lia]. simpl.
      destruct (parse_inner []) as [[v r0]|] eqn:Ev; [| reflexivity].
      apply parse_inner_shorter in Ev. simpl in Ev. lia.
    + simpl.
      destruct (parse_inner inp) as [[v r0]|] eqn:Ev; [| reflexivity].
      apply parse_inner_shorter in Ev.
      pose proof (skip_ws_length r0) as Hw.
      destruct (skip_ws r0) as [|c r]; [reflexivity |].
      destruct (c =? 44)%N; [| reflexivity].
      pose proof (skip_ws_length r).
      apply IH; simpl in *; lia.
Qed.

Lemma parse_members_shorter (fuel : nat) :
  forall inp acc members rest,
    parse_members parse_inner fuel inp acc = Some (members, rest) ->
    (List.length rest < List.length inp)%nat.
Proof.
  induction fuel as [|fuel IH]; intros inp acc members rest H; [discriminate |].
  simpl in H.
  destruct inp as [|q r]; [discriminate |].
  destruct (negb (q =? 34)%N); [discriminate |].
  destruct (parse_string_tail r []) as [[k r1]|] eqn:Ek; [| discriminate].
  apply parse_string_tail_shorter in Ek.
  pose proof (skip_ws_length r1) as Hw1.
  destruct (skip_ws r1) as [|colon r2]; [discriminate |].
  destruct (negb (colon =? 58)%N); [discriminate |].
  pose proof (skip_ws_length r2) as Hw2.
  destruct (parse_inner (skip_ws r2)) as [[v r3]|] eqn:Ev; [| discriminate].
  apply parse_inner_shorter in Ev.
  pose proof (skip_ws_length r3) as Hw3.
  destruct (skip_ws r3) as [|c r4]; [discriminate |].
  destruct (c =? 44)%N.
  - apply IH in H. pose proof (skip_ws_length r4). simpl in *. lia.
  - destruct (c =? 125)%N; [| discriminate].
    injection H as _ <-. simpl in *. lia.
Qed.

Lemma parse_members_fuel (fuel : nat) :
  forall fuel' inp acc,
    (List.length inp <= fuel)%nat -> (List.length inp <= fuel')%nat ->
    parse_members parse_inner fuel inp acc = parse_members parse_inner fuel' inp acc.
Proof.
  induction fuel as [|fuel IH]; intros fuel' inp acc H H'.
  - destruct inp; [| simpl in H; lia]. destruct fuel'; reflexivity.
  - destruct fuel' as [|fuel'].
    + destruct inp; [reflexivity | simpl in H'; lia].
    + simpl.
      destruct inp as [|q r]; [reflexivity |].
      destruct (negb (q =? 34)%N); [reflexivity |].
      destruct (parse_string_tail r []) as [[k r1]|] eqn:Ek; [| reflexivity].
      apply parse_string_tail_shorter in Ek.
      pose proof (skip_ws_length r1) as Hw1.
      destruct (skip_ws r1) as [|colon r2]; [reflexivity |].
      destruct (negb (colon =? 58)%N); [reflexivity |].
      pose proof (skip_ws_length r2) as Hw2.
      destruct (parse_inner (skip_ws r2)) as [[v r3]|] eqn:Ev; [| reflexivity].
      apply parse_inner_shorter in Ev.
      pose proof (skip_ws_length r3) as Hw3.
      destruct (skip_ws r3) as [|c r4]; [reflexivity |].
      destruct (c =? 44)%N; [| reflexivity].
      pose proof (skip_ws_length r4).
      apply IH; simpl in *; lia.
Qed.

End ContainerFacts.

(** Reading a value consumes input. *)
Lemma parse_value_shorter (depth : nat) :
  forall inp v rest,
    parse_value depth inp = Some (v, rest) ->
    (List.length rest < List.length inp)%nat.
Proof.
  induction depth as [|d IH]; intros inp v rest H;
    (destruct inp as [|c r]; [discriminate |]);
    cbn -[parse_items parse_members parse_number strip_prefix parse_string_tail
          skip_ws N.eqb u] in H.
  - destruct (c =? 91)%N.
    { pose proof (skip_ws_length r) as Hw.
      destruct (skip_ws r) as [|c' r0]; [discriminate |].
      destruct (c' =? 93)%N; [| discriminate].
      injection H as _ <-. simpl in *. lia. }
    destruct (c =? 123)%N.
    { pose proof (skip_ws_length r) as Hw.
      destruct (skip_ws r) as [|c' r0]; [discriminate |].
      destruct (c' =? 125)%N; [| discriminate].
      injection H as _ <-. simpl in *. lia. }
    destruct (c =? 34)%N.
    + destruct (parse_string_tail r []) as [[s r']|] eqn:Es; [| discriminate].
      apply parse_string_tail_shorter in Es.
      injection H as _ <-. simpl. lia.
    + destruct (strip_prefix (u "true") (c :: r)) as [r'|] eqn:E1.
      { injection H as _ <-. eapply strip_prefix_shorter; [| exact E1]. discriminate. }
      destruct (strip_prefix (u "false") (c :: r)) as [r'|] eqn:E2.
      { injection H as _ <-. eapply strip_prefix_shorter; [| exact E2]. discriminate. }
      destruct (strip_prefix (u "null") (c :: r)) as [r'|] eqn:E3.
      { injection H as _ <-. eapply strip_prefix_shorter; [| exact E3]. discriminate. }
      destruct (parse_number (c :: r)) as [[lexeme r']|] eqn:En; [| discriminate].
      injection H as _ <-. now apply parse_number_shorter in En.
  - destruct (c =? 91)%N.
    { pose proof (skip_ws_length r) as Hw.
      destruct (skip_ws r) as [|c' r0]; [discriminate |].
      destruct (c' =? 93)%N; [injection H as _ <-; simpl in *; lia |].
      destruct (parse_items (parse_value d) (S (List.length r0)) (c' :: r0) [])
        as [[items r']|] eqn:Ei; [| discriminate].
      apply (@parse_items_shorter (parse_value d) IH) in Ei.
      injection H as _ <-. simpl in *. lia. }
    destruct (c =? 123)%N.
    { pose proof (skip_ws_length r) as Hw.
      destruct (skip_ws r) as [|c' r0]; [discriminate |].
      destruct (c' =? 125)%N; [injection H as _ <-; simpl in *; lia |].
      destruct (parse_members (parse_value d) (S (List.length r0)) (c' :: r0) [])
        as [[members r']|] eqn:Em; [| discriminate].
      apply (@parse_members_shorter (parse_value d) IH) in Em.
      injection H as _ <-. simpl in *. lia. }
    destruct (c =? 34)%N.
    + destruct (parse_string_tail r []) as [[s r']|] eqn:Es; [| discriminate].
      apply parse_string_tail_shorter in Es.
      injection H as _ <-. simpl. lia.
    + destruct (strip_prefix (u "true") (c :: r)) as [r'|] eqn:E1.
      { injection H as _ <-. eapply strip_prefix_shorter; [| exact E1]. discriminate. }
      destruct (strip_prefix (u "false") (c :: r)) as [r'|] eqn:E2.
      { injection H as _ <-. eapply strip_prefix_shorter; [| exact E2]. discriminate. }
      destruct (strip_prefix (u "null") (c :: r)) as [r'|] eqn:E3.
      { injection H as _ <-. eapply strip_prefix_shorter; [| exact E3]. discriminate. }
      destruct (parse_number (c :: r)) as [[lexeme r']|] eqn:En; [| discriminate].
      injection H as _ <-. now apply parse_number_shorter in En.
Qed.

(** In [parse_value] the fuel of the two loops is enough: more of it
    changes nothing. *)
Lemma parse_value_fuel_is_enough (d extra : nat) (inp : pystr) (acc : list JsonValue)
    (acc' : list (pystr * JsonValue)) :
  parse_items (parse_value d) (List.length inp + extra) inp acc
  = parse_items (parse_value d) (List.length inp) inp acc
  /\ parse_members (parse_value d) (List.length inp + extra) inp acc'
     = parse_members (parse_value d) (List.length inp) inp acc'.
Proof.
  split.
  - apply (@parse_items_fuel (parse_value d) (@parse_value_shorter d)); lia.
  - apply (@parse_members_fuel (parse_value d) (@parse_value_shorter d)); lia.
Qed.

(* ================================================================== *)
(** * The word-count rule *)
(* ================================================================== *)

Lemma validate_analysis_length_accepts (v : pystr) :
  validate_analysis_length v = Accepted v <->
  (min_words <= word_count v <= max_words)%nat.
Proof.
  unfold validate_analysis_length.
  destruct (word_count v <? min_words)%nat eqn:Elo.
  - apply Nat.ltb_lt in Elo. split; [discriminate | lia].
  - apply Nat.ltb_ge in Elo.
    destruct (max_words <? word_count v)%nat eqn:Ehi.
    + apply Nat.ltb_lt in Ehi. split; [discriminate | lia].
    + apply Nat.ltb_ge in Ehi. split; [lia | reflexivity].
Qed.

(** C2.  The validator of [analysis] counts the tokens of [v.split()] and
    accepts exactly the texts with 40 to 200 of them: 40 and 200 tokens are
    accepted, 39 and 201 are refused (each with the message of its side),
    and so is it for texts written as words with single spaces between
    them. *)
Theorem analysis_word_count_rule :
  (forall v, word_count v = List.length (split v)) /\
  (forall v, validate_analysis_length v = Accepted v <->
             (40 <= word_count v <= 200)%nat) /\
  (forall v, word_count v = 40%nat -> validate_analysis_length v = Accepted v) /\
  (forall v, word_count v = 39%nat ->
             validate_analysis_length v
             = ValueError (u "Análise muito curta (39 palavras). Mínimo esperado: 40.")) /\
  (forall v, word_count v = 200%nat -> validate_analysis_length v = Accepted v) /\
  (forall v, word_count v = 201%nat ->
             validate_analysis_length v
             = ValueError (u "Análise muito longa (201 palavras). Máximo esperado: 200.")) /\
  (forall tokens, Forall is_word tokens ->
             word_count (join (u " ") tokens) = List.length tokens /\
             (validate_analysis_length (join (u " ") tokens)
              = Accepted (join (u " ") tokens) <->
              (40 <= List.length tokens <= 200)%nat)) /\
  (forall v, validate_analysis (JStr v) = Valid v <->
             (40 <= word_count v <= 200)%nat).
Proof.
  split; [reflexivity |].
  split; [exact validate_analysis_length_accepts |].
  split.
  { intros v H. apply validate_analysis_length_accepts.
    unfold min_words, max_words. lia. }
  split.
  { intros v H. unfold validate_analysis_length. rewrite H. reflexivity. }
  split.
  { intros v H. apply validate_analysis_length_accepts.
    unfold min_words, max_words. lia. }
  split.
  { intros v H. unfold validate_analysis_length. rewrite H. reflexivity. }
  split.
  { intros tokens Hw.
    assert (E : word_count (join (u " ") tokens) = List.length tokens).
    { unfold word_count. now rewrite split_join_words. }
    split; [exact E |].
    rewrite validate_analysis_length_accepts, E.
    unfold min_words, max_words. tauto. }
  intros v. rewrite <- (validate_analysis_length_accepts v).
  unfold validate_analysis, failure. simpl validate_str. cbv iota beta.
  destruct (validate_analysis_length v) as [a|msg]; split; congruence.
Qed.

(* ================================================================== *)
(** * Facts about the schema validator *)
(* ================================================================== *)

Lemma validate_items_strs (items : list JsonValue) (l : list pystr) (index : nat) :
  strs_of items = Some l -> validate_items index items = (l, []).
Proof.
  revert l index.
  induction items as [|j items IH]; intros l index H; simpl in *.
  - now inversion H.
  - destruct j; try discriminate.
    destruct (strs_of items) as [l'|] eqn:E; [|discriminate].
    inversion H; subst. now rewrite (IH l' (S index)).
Qed.

Lemma strs_of_length (items : list JsonValue) (l : list pystr) :
  strs_of items = Some l -> List.length items = List.length l.
Proof.
  revert l. induction items as [|j items IH]; intros l H; simpl in *.
  - now inversion H.
  - destruct j; try discriminate.
    destruct (strs_of items) as [l'|] eqn:E; [|discriminate].
    inversion H; subst. simpl. now rewrite (IH l').
Qed.

(** A list of strings is judged on its length alone. *)
Lemma validate_list_strs (lo hi : nat) (items : list JsonValue) (l : list pystr) :
  strs_of items = Some l ->
  validate_list (Some lo) (Some hi) (JArr items)
  = if (hi <? List.length l)%nat then failure (too_long hi (List.length l))
    else if (List.length l <? lo)%nat then failure (too_short lo (List.length l))
    else Valid l.
Proof.
  intros H. unfold validate_list, exceeds, falls_short.
  rewrite (validate_items_strs _ 0 H), (strs_of_length _ H).
  reflexivity.
Qed.

Lemma validate_list_unbounded (items : list JsonValue) (l : list pystr) :
  strs_of items = Some l -> validate_list None None (JArr items) = Valid l.
Proof.
  intros H. unfold validate_list, exceeds, falls_short.
  now rewrite (validate_items_strs _ 0 H).
Qed.

Lemma names_an_error_str (j : JsonValue) : names_an_error (validate_str j).
Proof. destruct j; simpl; try discriminate; exact I. Qed.

Lemma names_an_error_list (lo hi : option nat) (j : JsonValue) :
  names_an_error (validate_list lo hi j).
Proof.
  unfold validate_list.
  destruct j; simpl; try discriminate.
  destruct (exceeds hi (List.length items)); simpl; [discriminate |].
  destruct (validate_items 0 items) as [out [|e errs]]; simpl; [| discriminate].
  destruct (falls_short lo (List.length items)); simpl; [discriminate | exact I].
Qed.

Lemma names_an_error_level (j : JsonValue) : names_an_error (validate_level j).
Proof.
  destruct j; try (simpl; discriminate).
  unfold validate_level.
  destruct (find (fun l => pystr_eqb (level_str l) s) risk_levels);
    simpl; [exact I | discriminate].
Qed.

Lemma names_an_error_analysis (j : JsonValue) : names_an_error (validate_analysis j).
Proof.
  unfold validate_analysis.
  destruct j; simpl; try discriminate.
  destruct (validate_analysis_length s); simpl; [exact I | discriminate].
Qed.

Lemma names_an_error_bool (j : JsonValue) : names_an_error (validate_bool j).
Proof.
  unfold validate_bool.
  destruct j; simpl; try discriminate; try exact I.
  - destruct (number_as_bool lexeme); simpl; try discriminate; exact I.
  - destruct (str_as_bool s); simpl; [exact I | discriminate].
Qed.

Lemma names_an_error_field {A} (name : pystr) (members : list (pystr * JsonValue))
    (validator : JsonValue -> Validated A) :
  (forall j, names_an_error (validator j)) ->
  names_an_error (validate_field name members validator).
Proof.
  intros Hv. unfold validate_field.
  destruct (lookup name members) as [j|]; simpl; [| discriminate].
  specialize (Hv j). destruct (validator j) as [a|errs]; simpl in *; [exact I |].
  destruct errs; [now elim Hv | discriminate].
Qed.

Lemma names_an_error_RiskAssessment (j : JsonValue) :
  names_an_error (validate_RiskAssessment j).
Proof.
  unfold validate_RiskAssessment.
  destruct j; simpl; try discriminate.
  pose proof (names_an_error_field (u "level") members _ names_an_error_level) as Hl.
  pose proof (names_an_error_field (u "signals") members _
                (names_an_error_list None None)) as Hs.
  destruct (validate_field (u "level") members validate_level) as [l|el];
    destruct (validate_field (u "signals") members (validate_list None None)) as [s|es];
    simpl in *; try exact I; try assumption;
    destruct el; solve [congruence | discriminate].
Qed.

Lemma names_an_error_ClinicalReport (j : JsonValue) :
  names_an_error (validate_ClinicalReport j).
Proof.
  unfold validate_ClinicalReport.
  destruct j; simpl; try discriminate.
  pose proof (names_an_error_field (u "required") members _ names_an_error_bool) as Hr.
  pose proof (names_an_error_field (u "summary") members _ names_an_error_str) as Hs.
  destruct (validate_field (u "required") members validate_bool) as [r|er];
    destruct (validate_field (u "summary") members validate_str) as [s|es];
    simpl in *; try exact I; try assumption;
    destruct er; solve [congruence | discriminate].
Qed.

(** The model is built exactly when no field has an error; otherwise every
    field's errors are reported, none dropped. *)
Lemma validate_ClinicalOutput_fields (members : list (pystr * JsonValue)) :
  (field_errors members = []
   /\ exists o, validate_ClinicalOutput (JObj members) = Valid o)
  \/ (field_errors members <> []
      /\ validate_ClinicalOutput (JObj members) = Invalid (field_errors members)).
Proof.
  unfold field_errors, validate_ClinicalOutput.
  pose proof (names_an_error_field (u "analysis") members _ names_an_error_analysis) as Ha.
  pose proof (names_an_error_field (u "themes") members _
                (names_an_error_list (Some 3%nat) (Some 6%nat))) as Ht.
  pose proof (names_an_error_field (u "signifiers") members _
                (names_an_error_list (Some 3%nat) (Some 8%nat))) as Hs.
  pose proof (names_an_error_field (u "hypotheses") members _
                (names_an_error_list (Some 2%nat) (Some 4%nat))) as Hh.
  pose proof (names_an_error_field (u "questions") members _
                (names_an_error_list (Some 3%nat) (Some 6%nat))) as Hq.
  pose proof (names_an_error_field (u "risk_assessment") members _
                names_an_error_RiskAssessment) as Hr.
  pose proof (names_an_error_field (u "clinical_report") members _
                names_an_error_ClinicalReport) as Hc.
  destruct (validate_field (u "analysis") members validate_analysis) as [a|ea];
  destruct (validate_field (u "themes") members _) as [t|et];
  destruct (validate_field (u "signifiers") members _) as [s|es];
  destruct (validate_field (u "hypotheses") members _) as [h|eh];
  destruct (validate_field (u "questions") members _) as [q|eq];
  destruct (validate_field (u "risk_assessment") members _) as [r|er];
  destruct (validate_field (u "clinical_report") members _) as [c|ec];
  simpl in *;
  first
    [ left; split; [reflexivity | eexists; reflexivity]
    | right; split; [| reflexivity];
      intros Hnil;
      repeat match goal with
             | H : _ ++ _ = [] |- _ => apply app_eq_nil in H as [? ?]
             end;
      subst; congruence ].
Qed.







(* ================================================================== *)
(** * Facts about [validation_node] *)
(* ================================================================== *)

(** What the node returns on a text, by what the reader and the schema
    validator make of it. *)
Lemma validation_node_text (state : ClinicalState) (text : pystr) :
  get_raw_response state (u "") = Some text ->
  validation_node state
  = match parse_json text with
    | None =>
        mkUpdate None (Some None)
          (Some [error_text (mkLineError (json_invalid (json_error_text text)) [])])
    | Some j =>
        match validate_ClinicalOutput j with
        | Valid o => mkUpdate None (Some (Some o)) (Some [])
        | Invalid errs => mkUpdate None (Some None) (Some (map error_text errs))
        end
    end.
Proof.
  intros H. unfold validation_node, model_validate_json. rewrite H.
  destruct (parse_json text) as [j|]; [| reflexivity].
  destruct (validate_ClinicalOutput j); reflexivity.
Qed.

Lemma validation_node_none (state : ClinicalState) :
  get_raw_response state (u "") = None ->
  validation_node state
  = mkUpdate None (Some None) (Some [error_text (mkLineError json_type [])]).
Proof.
  intros H. unfold validation_node, model_validate_json. now rewrite H.
Qed.

(** Whatever the state, the node returns a model exactly when it returns no
    error. *)
Lemma validation_node_value_iff_no_error (state : ClinicalState) :
  ((exists obj, upd_parsed_output (validation_node state) = Some (Some obj))
   <-> upd_errors (validation_node state) = Some [])
  /\ (upd_errors (validation_node state) <> Some [] ->
      upd_parsed_output (validation_node state) = Some None).
Proof.
  destruct (get_raw_response state (u "")) as [text|] eqn:Hraw.
  - rewrite (validation_node_text _ Hraw).
    destruct (parse_json text) as [j|].
    + assert (Hj : (exists o, validate_ClinicalOutput j = Valid o)
                   \/ (exists errs, errs <> []
                                    /\ validate_ClinicalOutput j = Invalid errs)).
      { destruct j;
          try (right; exists [mkLineError model_type []];
               split; [discriminate | reflexivity]).
        destruct (validate_ClinicalOutput_fields members) as [[_ Ho] | [Hne Hinv]];
          [left; exact Ho | right; eauto]. }
      destruct Hj as [[o Ho] | [errs [Hne Hinv]]].
      * rewrite Ho. simpl. split; [split; eauto | congruence].
      * rewrite Hinv. simpl. split; [| reflexivity].
        split; [intros [obj [=]] |].
        intros [= H]. apply map_eq_nil in H. contradiction.
    + simpl. split; [| reflexivity].
      split; [intros [obj [=]] | discriminate].
  - rewrite (validation_node_none _ Hraw). simpl. split; [| reflexivity].
    split; [intros [obj [=]] | discriminate].
Qed.



(** Whatever the reader's wording, the entry for a [raw_response] of
    [None] is not the entry for the empty text. *)
Lemma none_entry_is_not_empty_text_entry (state state' : ClinicalState) :
  raw_response state = Some None ->
  raw_response state' = Some (Some (u "")) ->
  validation_node state <> validation_node state'.
Proof.
  intros H H'.
  rewrite (validation_node_none state) by (unfold get_raw_response; now rewrite H).
  rewrite (validation_node_text state' (text := u ""))
    by (unfold get_raw_response; now rewrite H').
  change (parse_json (u "")) with (@None JsonValue).
  intros E. vm_compute in E. discriminate E.
Qed.

(** C9, as the code has it.  The default of [state.get], the empty text,
    serves a state without the [raw_response] key only: on such a state the
    node validates the empty text.  The [None] that [main] writes at state creation is a
    value of the key, so the default does not replace it: [None] reaches
    [model_validate_json] as it is, and the entry returned is the one for
    an input that is no text, not the one for the empty text.  On both
    states the node raises nothing and returns an absent [parsed_output]
    with exactly one error. *)
Theorem validation_tolerates_absent_raw_response (state : ClinicalState) :
  (raw_response state = None ->
   forall state', raw_response state' = Some (Some (u "")) ->
                  validation_node state = validation_node state')
  /\ (raw_response state = None \/ raw_response state = Some None ->
      exists e, validation_node state = mkUpdate None (Some None) (Some [e]))
  /\ (raw_response state = Some None ->
      validation_node state
      = mkUpdate None (Some None)
          (Some [u "Validation Error: JSON input should be string, bytes or bytearray at ()"])
      /\ forall state', raw_response state' = Some (Some (u "")) ->
                        validation_node state <> validation_node state').
Proof.
  split; [| split].
  - intros H state' H'.
    rewrite (validation_node_text state (text := u "")),
            (validation_node_text state' (text := u "")); trivial.
    + unfold get_raw_response. now rewrite H'.
    + unfold get_raw_response. now rewrite H.
  - intros [H | H].
    + rewrite (validation_node_text state (text := u ""))
        by (unfold get_raw_response; now rewrite H).
      change (parse_json (u "")) with (@None JsonValue). eauto.
    + rewrite validation_node_none by (unfold get_raw_response; now rewrite H).
      eauto.
  - intros H. split.
    + rewrite validation_node_none by (unfold get_raw_response; now rewrite H).
      reflexivity.
    + intros state' H'. now apply none_entry_is_not_empty_text_entry.
Qed.

(* ================================================================== *)
(** * The fallback of [call_model] *)
(* ================================================================== *)

Lemma fallback_validates :
  exists obj,
    model_validate_json (Some (dumps mock_response)) = inr obj
    /\ model_dump obj = mock_response
    /\ satisfies_data_model obj.
Proof.
  destruct (model_validate_json (Some (dumps mock_response))) as [r|obj] eqn:E.
  - vm_compute in E. discriminate.
  - exists obj. split; [reflexivity |].
    vm_compute in E. injection E as <-.
    split; [vm_compute; reflexivity |].
    unfold satisfies_data_model.
    repeat split; try (vm_compute; lia).
    left. reflexivity.
Qed.

(** C1.  Whatever the prompt, when the request to the model service
    raises, [call_model] raises nothing and returns the serialized
    [mock_response]; that text validates with no error, into a model that
    dumps back to [mock_response] and respects every rule of the data
    model. *)
Theorem fallback_payload_is_valid (prompt e : pystr) (w w' : World) :
  chat_completion prompt w = (Raise e, w') ->
  exists text obj,
    call_model prompt w = (Return (Some text), w')
    /\ text = dumps mock_response
    /\ model_validate_json (Some text) = inr obj
    /\ (forall state, raw_response state = Some (Some text) ->
          validation_node state = mkUpdate None (Some (Some obj)) (Some []))
    /\ model_dump obj = mock_response
    /\ satisfies_data_model obj.
Proof.
  intros Hchat.
  destruct fallback_validates as [obj [Hval [Hdump Hsat]]].
  exists (dumps mock_response), obj.
  split; [unfold call_model, try_except; now rewrite Hchat |].
  split; [reflexivity |].
  split; [exact Hval |].
  split; [| split; assumption].
  intros state Hraw. unfold validation_node, get_raw_response.
  now rewrite Hraw, Hval.
Qed.

(** C10.  On the fallback path the text [call_model] returns is the same
    for any two prompts, in any two worlds; and so is the [raw_response]
    [generation_node] writes, whatever the input text and the prompt
    version of the two states. *)
Theorem fallback_is_prompt_insensitive :
  (forall (p1 p2 e1 e2 : pystr) (w1 w1' w2 w2' : World),
      chat_completion p1 w1 = (Raise e1, w1') ->
      chat_completion p2 w2 = (Raise e2, w2') ->
      fst (call_model p1 w1) = fst (call_model p2 w2)
      /\ fst (call_model p1 w1) = Return (Some (dumps mock_response)))
  /\ (forall (s1 s2 : ClinicalState) (t1 t2 e1 e2 : pystr)
             (w1 w1' w1'' w2 w2' w2'' : World),
      load_prompt (prompt_version s1) w1 = (Return t1, w1') ->
      chat_completion (replace t1 (u "{INPUT}") (input_text s1)) w1' = (Raise e1, w1'') ->
      load_prompt (prompt_version s2) w2 = (Return t2, w2') ->
      chat_completion (replace t2 (u "{INPUT}") (input_text s2)) w2' = (Raise e2, w2'') ->
      fst (generation_node s1 w1) = fst (generation_node s2 w2)).
Proof.
  split.
  - intros p1 p2 e1 e2 w1 w1' w2 w2' H1 H2.
    unfold call_model, try_except. now rewrite H1, H2.
  - intros s1 s2 t1 t2 e1 e2 w1 w1' w1'' w2 w2' w2'' L1 C1 L2 C2.
    unfold generation_node, bind, call_model, try_except.
    now rewrite L1, L2, C1, C2.
Qed.

(* ================================================================== *)
(** * Facts about the batch loop *)
(* ================================================================== *)

Lemma count_ok_app (a b : list ItemResult) :
  count_ok (a ++ b) = (count_ok a + count_ok b)%nat.
Proof. unfold count_ok. now rewrite filter_app, length_app. Qed.

Lemma count_ok_cons (r : ItemResult) (l : list ItemResult) :
  Z.of_nat (count_ok (r :: l))
  = ((if ok r then 1 else 0) + Z.of_nat (count_ok l))%Z.
Proof.
  unfold count_ok. simpl filter. destruct (ok r); [| reflexivity].
  simpl List.length. lia.
Qed.

(** One turn of the loop: the entry of the item is appended and counted,
    whether [app.invoke] returned or raised. *)
Lemma main_loop_cons (app : list (ClinicalState -> M Update)) (prompt_version : pystr)
    (fname text : pystr) (rest : list (pystr * pystr))
    (results : list ItemResult) (ok_count : Z) (w : World) :
  main_loop app prompt_version ((fname, text) :: rest) results ok_count w
  = main_loop app prompt_version rest
      (results
       ++ [item_entry fname (fst (invoke app (initial_state fname text prompt_version) w))])
      (if ok (item_entry fname (fst (invoke app (initial_state fname text prompt_version) w)))
       then ok_count + 1 else ok_count)%Z
      (snd (invoke app (initial_state fname text prompt_version) w)).
Proof.
  simpl. unfold bind at 1. unfold try_except, bind at 1.
  destruct (invoke app (initial_state fname text prompt_version) w) as [[fs|e] w1];
    reflexivity.
Qed.

(** The loop, run from any [results] and [ok_count], raises nothing: it
    appends the entries of its items and adds the number of them that are
    ok. *)
Lemma main_loop_run (app : list (ClinicalState -> M Update)) (prompt_version : pystr)
    (items : list (pystr * pystr)) :
  forall (results : list ItemResult) (ok_count : Z) (w : World),
    main_loop app prompt_version items results ok_count w
    = (Return (results ++ fst (run_items app prompt_version items w),
               (ok_count + Z.of_nat (count_ok (fst (run_items app prompt_version items w))))%Z),
       snd (run_items app prompt_version items w)).
Proof.
  induction items as [|[fname text] rest IH]; intros results ok_count w.
  - simpl. unfold ret. now rewrite app_nil_r, Z.add_0_r.
  - rewrite main_loop_cons, IH. simpl run_items.
    destruct (invoke app (initial_state fname text prompt_version) w) as [r w1].
    simpl fst. simpl snd.
    destruct (run_items app prompt_version rest w1) as [entries w'].
    simpl fst. simpl snd.
    rewrite count_ok_cons, <- app_assoc.
    apply f_equal2; [| reflexivity]. apply f_equal. apply f_equal2; [reflexivity |].
    destruct (ok (item_entry fname r)); lia.
Qed.

(** [main] raises nothing, and its report is read off the entries. *)
Lemma main_run (items : list (pystr * pystr)) (prompt_version : pystr) (w : World) :
  main items prompt_version w
  = (Return
       (mkRunReport prompt_version
          (Z.of_nat (List.length (fst (run_items build_graph prompt_version items w))))
          (mkMetrics
             (Z.of_nat (count_ok (fst (run_items build_graph prompt_version items w))))
             (Z.of_nat (List.length (fst (run_items build_graph prompt_version items w)))
              - Z.of_nat (count_ok (fst (run_items build_graph prompt_version items w)))))
          (fst (run_items build_graph prompt_version items w))),
     snd (run_items build_graph prompt_version items w)).
Proof.
  unfold main, bind. rewrite main_loop_run. reflexivity.
Qed.

Lemma run_items_files (app : list (ClinicalState -> M Update)) (prompt_version : pystr)
    (items : list (pystr * pystr)) (w : World) :
  map file (fst (run_items app prompt_version items w)) = map fst items.
Proof.
  revert w. induction items as [|[fname text] rest IH]; intros w; simpl.
  - reflexivity.
  - destruct (invoke app (initial_state fname text prompt_version) w) as [r w1].
    specialize (IH w1).
    destruct (run_items app prompt_version rest w1) as [entries w'].
    simpl in *. rewrite IH. f_equal. now destruct r.
Qed.

Lemma run_items_app (app : list (ClinicalState -> M Update)) (prompt_version : pystr)
    (pre post : list (pystr * pystr)) (w : World) :
  run_items app prompt_version (pre ++ post) w
  = (fst (run_items app prompt_version pre w)
     ++ fst (run_items app prompt_version post (snd (run_items app prompt_version pre w))),
     snd (run_items app prompt_version post (snd (run_items app prompt_version pre w)))).
Proof.
  revert w. induction pre as [|[fname text] rest IH]; intros w; simpl.
  - now destruct (run_items app prompt_version post w).
  - destruct (invoke app (initial_state fname text prompt_version) w) as [r w1].
    rewrite IH.
    destruct (run_items app prompt_version rest w1) as [entries w'].
    reflexivity.
Qed.

(** In an entry, [ok] holds exactly when there is an output and no error;
    an entry that is not ok has no output. *)
Lemma item_entry_ok (fname : pystr) (r : Outcome ClinicalState) :
  (ok (item_entry fname r) = true
   <-> output (item_entry fname r) <> None /\ item_errors (item_entry fname r) = [])
  /\ (ok (item_entry fname r) = false -> output (item_entry fname r) = None).
Proof.
  destruct r as [fs|e]; simpl.
  - destruct (parsed_output fs) as [obj|]; simpl.
    + destruct (errors fs) as [|x l] eqn:E; simpl; rewrite ?E.
      * split; [split; [intros _; split; [discriminate | reflexivity] | reflexivity]
               | discriminate].
      * split; [split; [discriminate | intros [H _]; now elim H] | reflexivity].
    + split; [split; [discriminate | intros [H _]; now elim H] | reflexivity].
  - split; [split; [discriminate | intros [H _]; now elim H] | reflexivity].
Qed.

Lemma run_items_entries_ok (app : list (ClinicalState -> M Update))
    (prompt_version : pystr) (items : list (pystr * pystr)) (w : World) :
  Forall (fun r => (ok r = true <-> output r <> None /\ item_errors r = [])
                   /\ (ok r = false -> output r = None))
         (fst (run_items app prompt_version items w)).
Proof.
  revert w. induction items as [|[fname text] rest IH]; intros w; simpl.
  - constructor.
  - destruct (invoke app (initial_state fname text prompt_version) w) as [r w1].
    specialize (IH w1).
    destruct (run_items app prompt_version rest w1) as [entries w'].
    simpl in *. constructor; [apply item_entry_ok | exact IH].
Qed.

Lemma run_items_cons (app : list (ClinicalState -> M Update)) (prompt_version : pystr)
    (fname text : pystr) (rest : list (pystr * pystr)) (w : World) :
  run_items app prompt_version ((fname, text) :: rest) w
  = (item_entry fname (fst (invoke app (initial_state fname text prompt_version) w))
     :: fst (run_items app prompt_version rest
               (snd (invoke app (initial_state fname text prompt_version) w))),
     snd (run_items app prompt_version rest
            (snd (invoke app (initial_state fname text prompt_version) w)))).
Proof.
  simpl.
  destruct (invoke app (initial_state fname text prompt_version) w) as [r w1].
  simpl. now destruct (run_items app prompt_version rest w1).
Qed.

Lemma run_items_length (app : list (ClinicalState -> M Update)) (prompt_version : pystr)
    (items : list (pystr * pystr)) (w : World) :
  List.length (fst (run_items app prompt_version items w)) = List.length items.
Proof.
  rewrite <- (length_map file), run_items_files. apply length_map.
Qed.

(** C3.  Every batch run returns a report, and in it the two metrics add up
    to [total], which is the number of entries; [metrics.ok] counts the
    entries that are ok and [metrics.failed] is the rest. *)
Theorem metrics_add_up_to_total
    (items : list (pystr * pystr)) (prompt_version : pystr) (w : World) :
  exists report w',
    main items prompt_version w = (Return report, w')
    /\ (metrics_ok (metrics report) + metrics_failed (metrics report) = total report)%Z
    /\ total report = Z.of_nat (List.length (results report))
    /\ metrics_ok (metrics report) = Z.of_nat (count_ok (results report))
    /\ metrics_failed (metrics report)
       = (total report - metrics_ok (metrics report))%Z.
Proof.
  rewrite main_run. eexists. eexists. split; [reflexivity |].
  simpl. repeat split; lia.
Qed.

(** C4.  In every entry of the report, [ok] is true exactly when the
    output is there and the error list is empty, and an entry that is not
    ok has no output. *)
Theorem item_ok_iff_output_and_no_error
    (items : list (pystr * pystr)) (prompt_version : pystr) (w : World) :
  exists report w',
    main items prompt_version w = (Return report, w')
    /\ Forall (fun r => (ok r = true <-> output r <> None /\ item_errors r = [])
                        /\ (ok r = false -> output r = None))
              (results report).
Proof.
  rewrite main_run. eexists. eexists. split; [reflexivity |].
  simpl. apply run_items_entries_ok.
Qed.

(** C8.  The report has one entry for each item, in the order of the
    items. *)
Theorem results_follow_input_order
    (items : list (pystr * pystr)) (prompt_version : pystr) (w : World) :
  exists report w',
    main items prompt_version w = (Return report, w')
    /\ map file (results report) = map fst items
    /\ List.length (results report) = List.length items
    /\ total report = Z.of_nat (List.length items).
Proof.
  rewrite main_run. eexists. eexists. split; [reflexivity |].
  simpl. rewrite run_items_files, run_items_length. auto.
Qed.

(** C5.  When running the graph on one item raises, the batch goes on: the
    entries of the items before it stand, the item gets the entry of a
    runtime fault (not ok, one error, no output), the items after it are
    processed from the world the fault left as a batch of their own would
    be, and [total] is the number of items. *)
Theorem batch_survives_item_fault
    (pre post : list (pystr * pystr)) (fname text prompt_version e : pystr)
    (w w1 w2 : World) (before : RunReport) :
  main pre prompt_version w = (Return before, w1) ->
  invoke build_graph (initial_state fname text prompt_version) w1 = (Raise e, w2) ->
  exists after w3 report,
    main post prompt_version w2 = (Return after, w3)
    /\ main (pre ++ (fname, text) :: post) prompt_version w = (Return report, w3)
    /\ results report
       = results before
         ++ mkItemResult fname false [u "Runtime Error: " ++ e] None
         :: results after
    /\ nth_error (results report) (List.length pre)
       = Some (mkItemResult fname false [u "Runtime Error: " ++ e] None)
    /\ total report = Z.of_nat (List.length (pre ++ (fname, text) :: post)).
Proof.
  intros Hpre Hfault.
  rewrite main_run in Hpre. injection Hpre as Hbefore Hw1.
  rewrite !main_run, run_items_app, Hw1, run_items_cons, Hfault.
  simpl fst. simpl snd.
  destruct (run_items build_graph prompt_version post w2) as [entries w3] eqn:Epost.
  simpl fst. simpl snd.
  eexists. eexists. eexists.
  split; [reflexivity |].
  split; [reflexivity |].
  assert (Hlen : List.length (fst (run_items build_graph prompt_version pre w))
                 = List.length pre) by apply run_items_length.
  subst before. simpl results.
  split; [reflexivity |].
  split.
  - rewrite nth_error_app2 by lia. rewrite Hlen, Nat.sub_diag. reflexivity.
  - simpl total. rewrite !length_app, Hlen. simpl List.length.
    pose proof (run_items_length build_graph prompt_version post w2) as Hpost.
    rewrite Epost in Hpost. simpl in Hpost. now rewrite Hpost.
Qed.

(* ================================================================== *)
(** * More about text and the word count *)
(* ================================================================== *)

Lemma forallb_rev {A} (f : A -> bool) (l : list A) :
  forallb f (rev l) = forallb f l.
Proof.
  induction l as [|a l IH]; [reflexivity |].
  simpl. rewrite forallb_app, IH. simpl. rewrite andb_true_r. apply andb_comm.
Qed.

(** What [split_from] returns: words only, and together the characters
    read so far and the rest of the text, its spaces left out. *)
Lemma split_from_words (s : pystr) :
  forall cur,
    forallb (fun c => negb (is_space c)) cur = true ->
    Forall is_word (split_from s cur)
    /\ concat (split_from s cur)
       = rev cur ++ filter (fun c => negb (is_space c)) s.
Proof.
  induction s as [|c s IH]; intros cur Hcur.
  - destruct cur as [|x cur]; simpl.
    + split; [constructor | reflexivity].
    + split; [| now rewrite !app_nil_r].
      constructor; [| constructor]. split.
      * intros E. apply (f_equal (@List.length N)) in E.
        rewrite length_app in E. simpl in E. lia.
      * change (rev cur ++ [x]) with (rev (x :: cur)). now rewrite forallb_rev.
  - simpl. destruct (is_space c) eqn:Ec; simpl.
    + destruct cur as [|x cur].
      * apply (IH []). reflexivity.
      * destruct (IH [] eq_refl) as [Hw Hc]. split.
        -- constructor; [| exact Hw]. split.
           ++ intros E. apply (f_equal (@List.length N)) in E.
              simpl in E. rewrite length_app in E. simpl in E. lia.
           ++ now rewrite forallb_rev.
        -- simpl concat. rewrite Hc. reflexivity.
    + destruct (IH (c :: cur)) as [Hw Hc].
      * simpl. now rewrite Ec.
      * split; [exact Hw |]. rewrite Hc. simpl. now rewrite <- app_assoc.
Qed.

Lemma concat_words_nil (tokens : list pystr) :
  Forall is_word tokens -> concat tokens = [] -> tokens = [].
Proof.
  intros Hw Hc. destruct tokens as [|t ts]; [reflexivity |].
  inversion Hw as [|? ? [Hne _] _]; subst.
  simpl in Hc. apply app_eq_nil in Hc as [Hc _]. contradiction.
Qed.

(** X6.  The tokens the validator counts are words (non-empty, free of
    space characters), and put end to end they are the text without its
    space characters; so a text of space characters only, the empty text
    included, has no word and is refused as too short. *)
Theorem split_counts_words_only (v : pystr) :
  Forall is_word (split v)
  /\ concat (split v) = filter (fun c => negb (is_space c)) v
  /\ (forallb is_space v = true ->
      word_count v = 0%nat
      /\ validate_analysis_length v
         = ValueError (u "Análise muito curta (0 palavras). Mínimo esperado: 40.")).
Proof.
  destruct (split_from_words v [] eq_refl) as [Hw Hc]. simpl in Hc.
  split; [exact Hw |]. split; [exact Hc |].
  intros Hs.
  assert (E : split v = []).
  { apply concat_words_nil; [exact Hw |]. unfold split. rewrite Hc.
    clear Hw Hc. induction v as [|c v IH]; [reflexivity |].
    simpl in *. apply andb_prop in Hs as [Hc Hv]. rewrite Hc. simpl. now apply IH. }
  assert (E0 : word_count v = 0%nat) by (unfold word_count; now rewrite E).
  split; [exact E0 |].
  unfold validate_analysis_length. rewrite E0. reflexivity.
Qed.

(* ================================================================== *)
(** * More about the schema validator *)
(* ================================================================== *)

Lemma pystr_eqb_true (a b : pystr) : pystr_eqb a b = true <-> a = b.
Proof.
  unfold pystr_eqb. destruct (list_eq_dec N.eq_dec a b); split; congruence.
Qed.

Lemma validate_level_exact (j : JsonValue) (l : RiskLevel) :
  validate_level j = Valid l <-> j = JStr (level_str l).
Proof.
  split.
  - unfold validate_level, failure. destruct j; try discriminate.
    destruct (find (fun l0 => pystr_eqb (level_str l0) s) risk_levels) as [l0|] eqn:E;
      [| discriminate].
    intros [= <-]. apply find_some in E as [_ E].
    apply pystr_eqb_true in E. now subst.
  - intros ->. destruct l; vm_compute; reflexivity.
Qed.

(** X5.  The level is matched exactly: a value is accepted as a level if
    and only if it is a string spelled as that level is, letter for letter,
    case and accent included; any other value gets the one error of the
    enumeration. *)
Theorem level_match_is_exact (j : JsonValue) :
  (forall l, validate_level j = Valid l <-> j = JStr (level_str l))
  /\ ((forall l, j <> JStr (level_str l)) ->
      validate_level j = Invalid [mkLineError literal_error []]).
Proof.
  split; [intros l; apply validate_level_exact |].
  intros Hno. destruct (validate_level j) as [l|errs] eqn:E.
  - apply validate_level_exact in E. now elim (Hno l).
  - revert E. unfold validate_level, failure. destruct j; try congruence.
    destruct (find (fun l0 => pystr_eqb (level_str l0) s) risk_levels);
      congruence.
Qed.

Lemma validate_items_valid (items : list JsonValue) :
  forall index out,
    validate_items index items = (out, []) -> strs_of items = Some out.
Proof.
  induction items as [|j items IH]; intros index out H; simpl in *.
  - now injection H as <-.
  - destruct (validate_items (S index) items) as [o e] eqn:E.
    destruct j; simpl in H; try discriminate.
    injection H as <- ->. now rewrite (IH _ _ E).
Qed.

Lemma validate_list_valid (lo hi : option nat) (j : JsonValue) (l : list pystr) :
  validate_list lo hi j = Valid l ->
  exists items,
    j = JArr items /\ strs_of items = Some l
    /\ exceeds hi (List.length l) = false
    /\ falls_short lo (List.length l) = false.
Proof.
  unfold validate_list, failure. destruct j; try discriminate.
  destruct (exceeds hi (List.length items)) eqn:Eh; [discriminate |].
  destruct (validate_items 0 items) as [out [|e errs]] eqn:Ei; [| discriminate].
  destruct (falls_short lo (List.length items)) eqn:El; [discriminate |].
  intros [= <-]. apply validate_items_valid in Ei.
  exists items. rewrite <- (strs_of_length _ Ei). auto.
Qed.

Lemma validate_field_valid {A} (name : pystr) (members : list (pystr * JsonValue))
    (validator : JsonValue -> Validated A) (a : A) :
  validate_field name members validator = Valid a ->
  exists j, lookup name members = Some j /\ validator j = Valid a.
Proof.
  unfold validate_field. destruct (lookup name members) as [j|]; [| discriminate].
  destruct (validator j) as [a'|] eqn:E; [| discriminate].
  intros [= <-]. eauto.
Qed.

Lemma bounded_list_field (name : pystr) (members : list (pystr * JsonValue))
    (lo hi : nat) (l : list pystr) :
  validate_field name members (validate_list (Some lo) (Some hi)) = Valid l ->
  get_strs name members = Some l /\ (lo <= List.length l <= hi)%nat.
Proof.
  intros H. apply validate_field_valid in H as [j [Hj Hv]].
  apply validate_list_valid in Hv as [items [-> [Hs [Hhi Hlo]]]].
  unfold get_strs. rewrite Hj. split; [exact Hs |].
  simpl in Hhi, Hlo. apply Nat.ltb_ge in Hhi. apply Nat.ltb_ge in Hlo. lia.
Qed.

Lemma str_field (name : pystr) (members : list (pystr * JsonValue)) (s : pystr) :
  validate_field name members validate_str = Valid s ->
  get_str name members = Some s.
Proof.
  intros H. apply validate_field_valid in H as [j [Hj Hv]].
  unfold get_str. rewrite Hj. destruct j; try discriminate. now injection Hv as ->.
Qed.

(** A model the schema validator returns holds the values of the document
    and respects the data model. *)
Lemma validated_model_is_sound (j : JsonValue) (o : ClinicalOutput) :
  validate_ClinicalOutput j = Valid o ->
  exists members, j = JObj members /\ reads_from members o /\ satisfies_data_model o.
Proof.
  unfold validate_ClinicalOutput, failure. destruct j; try discriminate.
  destruct (validate_field (u "analysis") members validate_analysis) as [a|] eqn:Ea;
    [| discriminate].
  destruct (validate_field (u "themes") members _) as [t|] eqn:Et; [| discriminate].
  destruct (validate_field (u "signifiers") members _) as [s|] eqn:Es; [| discriminate].
  destruct (validate_field (u "hypotheses") members _) as [h|] eqn:Eh; [| discriminate].
  destruct (validate_field (u "questions") members _) as [q|] eqn:Eq; [| discriminate].
  destruct (validate_field (u "risk_assessment") members _) as [r|] eqn:Er;
    [| discriminate].
  destruct (validate_field (u "clinical_report") members _) as [c|] eqn:Ec;
    [| discriminate].
  intros [= <-]. exists members. split; [reflexivity |].
  apply bounded_list_field in Et as [Gt Lt], Es as [Gs Ls], Eh as [Gh Lh], Eq as [Gq Lq].
  (* analysis *)
  apply validate_field_valid in Ea as [ja [Hja Hva]].
  unfold validate_analysis, failure in Hva.
  destruct ja; try discriminate. simpl in Hva.
  destruct (validate_analysis_length s0) as [a'|] eqn:Hlen; [| discriminate].
  injection Hva as ->.
  assert (Ha : validate_analysis_length s0 = Accepted s0 /\ a = s0).
  { unfold validate_analysis_length in Hlen |- *.
    destruct (word_count s0 <? min_words)%nat; [discriminate |].
    destruct (max_words <? word_count s0)%nat; [discriminate |].
    injection Hlen as <-. auto. }
  destruct Ha as [Ha ->].
  apply validate_analysis_length_accepts in Ha. unfold min_words, max_words in Ha.
  (* risk_assessment *)
  apply validate_field_valid in Er as [jr [Hjr Hvr]].
  unfold validate_RiskAssessment, failure in Hvr.
  destruct jr as [| | | | |rm]; try discriminate.
  destruct (validate_field (u "level") rm validate_level) as [lv|] eqn:El;
    [| discriminate].
  destruct (validate_field (u "signals") rm (validate_list None None)) as [sg|] eqn:Eg;
    [| discriminate].
  injection Hvr as <-.
  apply validate_field_valid in El as [jl [Hjl Hvl]].
  apply validate_level_exact in Hvl. subst jl.
  apply validate_field_valid in Eg as [jg [Hjg Hvg]].
  apply validate_list_valid in Hvg as [items [-> [Hsg _]]].
  (* clinical_report *)
  apply validate_field_valid in Ec as [jc [Hjc Hvc]].
  unfold validate_ClinicalReport, failure in Hvc.
  destruct jc as [| | | | |cm]; try discriminate.
  destruct (validate_field (u "required") cm validate_bool) as [rq|] eqn:Erq;
    [| discriminate].
  destruct (validate_field (u "summary") cm validate_str) as [su|] eqn:Esu;
    [| discriminate].
  injection Hvc as <-. apply str_field in Esu.
  split.
  - unfold reads_from. simpl.
    split; [unfold get_str; now rewrite Hja |].
    repeat (split; [assumption |]).
    split.
    + exists rm. unfold get_obj, get_str, get_strs. now rewrite Hjr, Hjl, Hjg.
    + exists cm. unfold get_obj. now rewrite Hjc.
  - unfold satisfies_data_model. simpl.
    repeat (split; [lia |]).
    destruct lv; simpl; auto.
Qed.






Lemma lookup_app (key : pystr) (a b : list (pystr * JsonValue)) :
  lookup key (a ++ b)
  = match lookup key b with
    | Some v => Some v
    | None => lookup key a
    end.
Proof.
  induction a as [|[k v] a IH]; simpl.
  - now destruct (lookup key b).
  - rewrite IH. now destruct (lookup key b).
Qed.

Lemma lookup_other (key k : pystr) (v : JsonValue) (a b : list (pystr * JsonValue)) :
  k <> key -> lookup key (a ++ (k, v) :: b) = lookup key (a ++ b).
Proof.
  intros Hk. rewrite !lookup_app. simpl.
  destruct (lookup key b); [reflexivity |].
  destruct (pystr_eqb k key) eqn:E; [| reflexivity].
  apply pystr_eqb_true in E. contradiction.
Qed.

(** X4.  The schema validator looks at a document only through the values
    under the seven field names: two objects that agree there are judged
    alike.  So a member under any other key, wherever it stands, is
    ignored. *)
Theorem only_schema_keys_matter :
  (forall m1 m2,
      (forall name, In name field_names -> lookup name m1 = lookup name m2) ->
      validate_ClinicalOutput (JObj m1) = validate_ClinicalOutput (JObj m2))
  /\ (forall k v a b,
        ~ In k field_names ->
        validate_ClinicalOutput (JObj (a ++ (k, v) :: b))
        = validate_ClinicalOutput (JObj (a ++ b))).
Proof.
  assert (H1 : forall m1 m2,
             (forall name, In name field_names -> lookup name m1 = lookup name m2) ->
             validate_ClinicalOutput (JObj m1) = validate_ClinicalOutput (JObj m2)).
  { intros m1 m2 H. unfold validate_ClinicalOutput, validate_field.
    rewrite !H by (unfold field_names; cbn [In]; auto 12). reflexivity. }
  split; [exact H1 |].
  intros k v a b Hk. apply H1. intros name Hin.
  apply lookup_other. intros ->. contradiction.
Qed.

(* ================================================================== *)
(** * More about the nodes and the graph *)
(* ================================================================== *)

(** [call_model] raises nothing: it returns what the one request returned,
    or the fallback text when the request raised. *)
Lemma call_model_returns (prompt : pystr) (w : World) :
  exists r,
    call_model prompt w = (Return r, snd (chat_completion prompt w))
    /\ (fst (chat_completion prompt w) = Return r
        \/ exists e, fst (chat_completion prompt w) = Raise e
                     /\ r = Some (dumps mock_response)).
Proof.
  unfold call_model, try_except, ret.
  destruct (chat_completion prompt w) as [[c|e] w']; cbn [fst snd].
  - exists c. split; [reflexivity | left; reflexivity].
  - exists (Some (dumps mock_response)).
    split; [reflexivity | right; exists e; split; reflexivity].
Qed.

(** X9.  [call_model] never raises and asks the service once: the world
    it leaves is the one the single request left, and it returns the
    content of the reply as it is (a text or [None]) when the request
    returned, the serialized fallback only when the request raised. *)
Theorem call_model_never_raises (prompt : pystr) (w : World) :
  exists r,
    call_model prompt w = (Return r, snd (chat_completion prompt w))
    /\ (forall c, fst (chat_completion prompt w) = Return c -> r = c)
    /\ (forall e, fst (chat_completion prompt w) = Raise e ->
                  r = Some (dumps mock_response)).
Proof.
  destruct (call_model_returns prompt w) as [r [H Hr]].
  exists r. split; [exact H |].
  destruct Hr as [Hr | [e [Hr ->]]]; rewrite Hr; split; congruence.
Qed.

Lemma replace_default_template (text : pystr) :
  replace default_template (u "{INPUT}") text = default_prompt text.
Proof. vm_compute. reflexivity. Qed.

Lemma replace_absent (old new s : pystr) :
  occurs old s = false -> replace s old new = s.
Proof.
  unfold replace. induction s as [|c s IH]; intros H; [reflexivity |].
  cbn [occurs] in H. apply orb_false_elim in H as [Hp Hs].
  cbn [replace_from]. rewrite Hp. now rewrite IH.
Qed.

(** What the graph does on a state, by what loading the prompt and calling
    the model give. *)
Lemma invoke_build_graph (state : ClinicalState) (w : World) :
  invoke build_graph state w
  = match load_prompt (prompt_version state) w with
    | (Return template, w1) =>
        match call_model (replace template (u "{INPUT}") (input_text state)) w1 with
        | (Return r, w2) =>
            (Return
               (apply_update (apply_update state (mkUpdate (Some r) None None))
                  (validation_node
                     (apply_update state (mkUpdate (Some r) None None)))),
             w2)
        | (Raise e, w2) => (Raise e, w2)
        end
    | (Raise e, w1) => (Raise e, w1)
    end.
Proof.
  unfold build_graph, invoke, generation_node, bind, ret.
  destruct (load_prompt (prompt_version state) w) as [[template|e] w1];
    [| reflexivity].
  destruct (call_model (replace template (u "{INPUT}") (input_text state)) w1)
    as [[r|e] w2]; reflexivity.
Qed.

Lemma generation_node_steps (state : ClinicalState) (w : World) :
  generation_node state w
  = match load_prompt (prompt_version state) w with
    | (Return template, w1) =>
        match call_model (replace template (u "{INPUT}") (input_text state)) w1 with
        | (Return r, w2) => (Return (mkUpdate (Some r) None None), w2)
        | (Raise e, w2) => (Raise e, w2)
        end
    | (Raise e, w1) => (Raise e, w1)
    end.
Proof.
  unfold generation_node, bind, ret.
  destruct (load_prompt (prompt_version state) w) as [[template|e] w1];
    [| reflexivity].
  destruct (call_model (replace template (u "{INPUT}") (input_text state)) w1)
    as [[r|e] w2]; reflexivity.
Qed.

Lemma load_prompt_absent (prompt_version : pystr) (w w1 : World) :
  path_exists (u "prompt_" ++ prompt_version ++ u ".txt") w = (Return false, w1) ->
  load_prompt prompt_version w = (Return default_template, w1).
Proof. intros H. unfold load_prompt, bind. now rewrite H. Qed.

(** X7.  When the prompt file of the version does not exist, no file is
    read, and the prompt the model service is asked with is the built-in
    template with the input text in the place of the placeholder: the text
    goes in as it is, whatever it holds. *)
Theorem builtin_template_prompt (state : ClinicalState) (w w1 : World) :
  path_exists (u "prompt_" ++ prompt_version state ++ u ".txt") w = (Return false, w1) ->
  load_prompt (prompt_version state) w = (Return default_template, w1)
  /\ replace default_template (u "{INPUT}") (input_text state)
     = default_prompt (input_text state)
  /\ generation_node state w
     = (Return
          (mkUpdate
             (Some
                (match chat_completion (default_prompt (input_text state)) w1 with
                 | (Return c, _) => c
                 | (Raise _, _) => Some (dumps mock_response)
                 end))
             None None),
        snd (chat_completion (default_prompt (input_text state)) w1)).
Proof.
  intros H. split; [now apply load_prompt_absent |].
  split; [apply replace_default_template |].
  rewrite generation_node_steps, (@load_prompt_absent _ _ _ H), replace_default_template.
  unfold call_model, try_except, ret.
  destruct (chat_completion (default_prompt (input_text state)) w1) as [[c|e] w2];
    reflexivity.
Qed.

(** X8.  A template in which the placeholder does not occur is sent as it
    is: the model service is asked with the template alone, so two states
    of one prompt version get the same update whatever their input
    texts. *)
Theorem template_without_placeholder (state state' : ClinicalState)
    (template : pystr) (w w1 : World) :
  load_prompt (prompt_version state) w = (Return template, w1) ->
  occurs (u "{INPUT}") template = false ->
  prompt_version state' = prompt_version state ->
  replace template (u "{INPUT}") (input_text state) = template
  /\ generation_node state w = generation_node state' w.
Proof.
  intros Hload Hocc Hv.
  split; [now apply replace_absent |].
  rewrite !generation_node_steps, Hv, Hload.
  now rewrite !(@replace_absent _ _ _ Hocc).
Qed.

Lemma load_prompt_raises (prompt_version e : pystr) (w w' : World) :
  load_prompt prompt_version w = (Raise e, w')
  <-> path_exists (u "prompt_" ++ prompt_version ++ u ".txt") w = (Raise e, w')
      \/ exists w1,
           path_exists (u "prompt_" ++ prompt_version ++ u ".txt") w = (Return true, w1)
           /\ path_read_text (u "prompt_" ++ prompt_version ++ u ".txt") w1
              = (Raise e, w').
Proof.
  unfold load_prompt, bind, ret.
  destruct (path_exists (u "prompt_" ++ prompt_version ++ u ".txt") w)
    as [[[|]|e0] w1]; simpl.
  - split.
    + intros H. right. exists w1. auto.
    + intros [H | [w2 [H1 H2]]]; [discriminate |]. now injection H1 as <-.
  - split; [discriminate |].
    intros [H | [w2 [H1 H2]]]; discriminate.
  - split; [intros [= -> ->]; left; reflexivity |].
    intros [[= -> ->] | [w2 [H1 H2]]]; [reflexivity | discriminate].
Qed.

(** X10.  Running the graph on an item raises exactly when loading the
    prompt raises, that is when checking for the prompt file or reading it
    does: a failure of the model service, or a reply that is no valid
    document, never makes the graph raise. *)
Theorem graph_raises_only_on_prompt (state : ClinicalState) (e : pystr) (w w' : World) :
  (invoke build_graph state w = (Raise e, w')
   <-> load_prompt (prompt_version state) w = (Raise e, w'))
  /\ (load_prompt (prompt_version state) w = (Raise e, w')
      <-> path_exists (u "prompt_" ++ prompt_version state ++ u ".txt") w = (Raise e, w')
          \/ exists w1,
               path_exists (u "prompt_" ++ prompt_version state ++ u ".txt") w
               = (Return true, w1)
               /\ path_read_text (u "prompt_" ++ prompt_version state ++ u ".txt") w1
                  = (Raise e, w')).
Proof.
  split; [| apply load_prompt_raises].
  rewrite invoke_build_graph.
  destruct (load_prompt (prompt_version state) w) as [[template|e0] w1];
    [| split; intros [= -> ->]; reflexivity].
  destruct (call_model_returns (replace template (u "{INPUT}") (input_text state)) w1)
    as [r [Hr _]].
  rewrite Hr. split; discriminate.
Qed.

Lemma validation_node_shape (state : ClinicalState) :
  exists p errs, validation_node state = mkUpdate None (Some p) (Some errs).
Proof.
  unfold validation_node.
  destruct (model_validate_json (get_raw_response state (u ""))) as [[]|];
    eauto.
Qed.

Lemma validation_node_raw (s1 s2 : ClinicalState) :
  raw_response s1 = raw_response s2 -> validation_node s1 = validation_node s2.
Proof.
  intros H. unfold validation_node, get_raw_response. now rewrite H.
Qed.

(** The state the graph returns. *)
Lemma graph_returns (state fs : ClinicalState) (w w' : World) :
  invoke build_graph state w = (Return fs, w') ->
  filename fs = filename state
  /\ input_text fs = input_text state
  /\ prompt_version fs = prompt_version state
  /\ (exists template w1 r,
        load_prompt (prompt_version state) w = (Return template, w1)
        /\ call_model (replace template (u "{INPUT}") (input_text state)) w1
           = (Return r, w')
        /\ raw_response fs = Some r)
  /\ validation_node fs = mkUpdate None (Some (parsed_output fs)) (Some (errors fs))
  /\ ((exists o, parsed_output fs = Some o) <-> errors fs = []).
Proof.
  rewrite invoke_build_graph.
  destruct (load_prompt (prompt_version state) w) as [[template|e0] w1] eqn:Hl;
    [| discriminate].
  destruct (call_model (replace template (u "{INPUT}") (input_text state)) w1)
    as [[r|e] w2] eqn:Hc; [| discriminate].
  intros [= <- <-].
  set (s1 := apply_update state (mkUpdate (Some r) None None)).
  destruct (validation_node_shape s1) as [p [errs Hs]].
  pose proof (validation_node_value_iff_no_error s1) as [Hiff _].
  rewrite Hs in Hiff. simpl in Hiff.
  rewrite Hs.
  set (fs := apply_update s1 (mkUpdate None (Some p) (Some errs))).
  assert (Hfs : validation_node fs = mkUpdate None (Some p) (Some errs)).
  { rewrite <- Hs. apply validation_node_raw. reflexivity. }
  split; [reflexivity |]. split; [reflexivity |]. split; [reflexivity |].
  split; [exists template, w1, r; auto |].
  split; [rewrite Hfs; reflexivity |].
  change (parsed_output fs) with p. change (errors fs) with errs.
  split.
  - intros [o ->]. assert (Some errs = Some []) as [= ->] by (apply Hiff; eauto).
    reflexivity.
  - intros ->. destruct Hiff as [_ Hiff]. destruct (Hiff eq_refl) as [o [= ->]].
    eauto.
Qed.

(** X11.  When the graph returns, the final state keeps the file name,
    the input text and the prompt version of the state it was given; its
    [raw_response] is what [call_model] returned for the rendered prompt;
    its [parsed_output] and [errors] are those [validation_node] gives for
    that response; and it holds a model exactly when it holds no error. *)
Theorem graph_final_state (state fs : ClinicalState) (w w' : World) :
  invoke build_graph state w = (Return fs, w') ->
  filename fs = filename state
  /\ input_text fs = input_text state
  /\ prompt_version fs = prompt_version state
  /\ (exists template w1 r,
        load_prompt (prompt_version state) w = (Return template, w1)
        /\ call_model (replace template (u "{INPUT}") (input_text state)) w1
           = (Return r, w')
        /\ raw_response fs = Some r)
  /\ validation_node fs = mkUpdate None (Some (parsed_output fs)) (Some (errors fs))
  /\ ((exists o, parsed_output fs = Some o) <-> errors fs = [])
  /\ (forall o, parsed_output fs = Some o -> satisfies_data_model o).
Proof.
  intros H. destruct (@graph_returns _ _ _ _ H) as [H1 [H2 [H3 [H4 [H5 H6]]]]].
  repeat (split; [assumption |]).
  intros o Ho.
  assert (Hp : upd_parsed_output (validation_node fs) = Some (Some o))
    by (rewrite H5; simpl; now rewrite Ho).
  destruct (get_raw_response fs (u "")) as [text|] eqn:Hraw.
  - rewrite (validation_node_text _ Hraw) in Hp.
    destruct (parse_json text) as [j|]; [| discriminate].
    destruct (validate_ClinicalOutput j) as [o'|errs] eqn:Hv; [| discriminate].
    injection Hp as ->.
    now apply validated_model_is_sound in Hv as [members [_ [_ Hs]]].
  - rewrite (validation_node_none _ Hraw) in Hp. discriminate.
Qed.

(* ================================================================== *)
(** * More about the batch *)
(* ================================================================== *)

Lemma run_items_Forall (P : ItemResult -> Prop)
    (app : list (ClinicalState -> M Update)) (prompt_version : pystr) :
  (forall fname text w,
      P (item_entry fname (fst (invoke app (initial_state fname text prompt_version) w)))) ->
  forall items w, Forall P (fst (run_items app prompt_version items w)).
Proof.
  intros HP. induction items as [|[fname text] rest IH]; intros w.
  - constructor.
  - rewrite run_items_cons. cbn [fst]. constructor; [apply HP | apply IH].
Qed.

(** What the entry of an item is, when the graph is the one of
    [build_graph]: ok with the dump of a model that respects the data
    model and no error, or not ok with no output and at least one error. *)
Lemma graph_entry_sound (fname text prompt_version : pystr) (w : World) :
  let r := item_entry fname
             (fst (invoke build_graph (initial_state fname text prompt_version) w)) in
  (ok r = true ->
   item_errors r = []
   /\ exists o, output r = Some (model_dump o) /\ satisfies_data_model o)
  /\ (ok r = false -> output r = None /\ item_errors r <> []).
Proof.
  destruct (invoke build_graph (initial_state fname text prompt_version) w)
    as [[fs|e] w'] eqn:H; cbn [fst item_entry].
  - destruct (@graph_returns _ _ _ _ H) as [_ [_ [_ [_ [Hnode Hiff]]]]].
    assert (Hsound : forall o, parsed_output fs = Some o -> satisfies_data_model o).
    { intros o Ho.
      assert (Hp : upd_parsed_output (validation_node fs) = Some (Some o))
        by (rewrite Hnode; simpl; now rewrite Ho).
      destruct (get_raw_response fs (u "")) as [t|] eqn:Hraw.
      - rewrite (validation_node_text _ Hraw) in Hp.
        destruct (parse_json t) as [j|]; [| discriminate].
        destruct (validate_ClinicalOutput j) as [o'|errs] eqn:Hv; [| discriminate].
        injection Hp as ->.
        now apply validated_model_is_sound in Hv as [members [_ [_ Hs]]].
      - rewrite (validation_node_none _ Hraw) in Hp. discriminate. }
    destruct (parsed_output fs) as [o|] eqn:Ho; cbn.
    + assert (He : errors fs = []) by (apply Hiff; eauto).
      rewrite He. cbn. split; [| discriminate].
      intros _. split; [reflexivity |]. exists o. split; [reflexivity | now apply Hsound].
    + split; [discriminate |]. intros _. split; [reflexivity |].
      intros He. apply Hiff in He as [o [=]].
  - unfold fault_result. cbn. split; [discriminate |].
    intros _. split; [reflexivity | discriminate].
Qed.

(** X12.  In the report of [main] no entry fails silently and no entry
    passes unchecked: an entry that is not ok has no output and at least
    one error message, and an entry that is ok has no error and, as
    output, the dump of a model that respects every rule of the data
    model. *)
Theorem report_entries_are_sound
    (items : list (pystr * pystr)) (prompt_version : pystr) (w : World) :
  exists report w',
    main items prompt_version w = (Return report, w')
    /\ Forall (fun r =>
                 (ok r = true ->
                  item_errors r = []
                  /\ exists o, output r = Some (model_dump o) /\ satisfies_data_model o)
                 /\ (ok r = false -> output r = None /\ item_errors r <> []))
              (results report).
Proof.
  rewrite main_run. eexists. eexists. split; [reflexivity |].
  cbn [results]. apply run_items_Forall. intros fname text w0.
  apply graph_entry_sound.
Qed.

(** X13.  A batch over two lists of items one after the other is the
    batch over the first followed by the batch over the second, run in the
    world the first left: the entries are put end to end and the total and
    the two metrics add up.  The batch over no item is the empty report
    and leaves the world alone. *)
Theorem batches_compose
    (a b : list (pystr * pystr)) (prompt_version : pystr) (w : World) :
  (exists ra wa rb wb rab,
      main a prompt_version w = (Return ra, wa)
      /\ main b prompt_version wa = (Return rb, wb)
      /\ main (a ++ b) prompt_version w = (Return rab, wb)
      /\ results rab = results ra ++ results rb
      /\ total rab = (total ra + total rb)%Z
      /\ metrics_ok (metrics rab)
         = (metrics_ok (metrics ra) + metrics_ok (metrics rb))%Z
      /\ metrics_failed (metrics rab)
         = (metrics_failed (metrics ra) + metrics_failed (metrics rb))%Z)
  /\ main [] prompt_version w
     = (Return (mkRunReport prompt_version 0 (mkMetrics 0 0) []), w).
Proof.
  split; [| reflexivity].
  pose proof (main_run b prompt_version
                (snd (run_items build_graph prompt_version a w))) as Hb.
  rewrite (main_run a prompt_version w), (main_run (a ++ b) prompt_version w).
  rewrite run_items_app.
  do 5 eexists.
  split; [reflexivity |]. split; [exact Hb |]. split; [reflexivity |].
  cbn [results total metrics metrics_ok metrics_failed fst snd].
  rewrite count_ok_app, length_app.
  split; [reflexivity |]. repeat split; lia.
Qed.

Lemma count_ok_fallback (items : list (pystr * pystr)) :
  count_ok (map (fun it => fallback_result (fst it)) items) = List.length items.
Proof.
  unfold count_ok. induction items as [|it items IH]; [reflexivity |].
  cbn [map filter fallback_result ok List.length]. now rewrite IH.
Qed.

(** X14.  When the prompt can always be loaded and the model service
    raises at every request, every item of a batch goes through the
    fallback: each entry is ok, with no error and [mock_response] as
    output, whatever the input text, and the metrics count every item as
    ok and none as failed. *)
Theorem service_down_every_item_ok :
  (forall p w, exists t w', load_prompt p w = (Return t, w')) ->
  (forall p w, exists e w', chat_completion p w = (Raise e, w')) ->
  forall (items : list (pystr * pystr)) (version : pystr) (w : World),
  exists report w',
    main items version w = (Return report, w')
    /\ results report = map (fun it => fallback_result (fst it)) items
    /\ metrics report = mkMetrics (Z.of_nat (List.length items)) 0
    /\ total report = Z.of_nat (List.length items).
Proof.
  intros Hload Hdown items version w.
  assert (Hrun : forall items w,
             fst (run_items build_graph version items w)
             = map (fun it => fallback_result (fst it)) items).
  { clear items w. induction items as [|[fname text] rest IH]; intros w.
    - reflexivity.
    - rewrite run_items_cons. cbn [fst map]. rewrite IH. f_equal.
      rewrite invoke_build_graph.
      destruct (Hload version w) as [t [w1 Hl]].
      cbn [prompt_version initial_state input_text]. rewrite Hl.
      destruct (Hdown (replace t (u "{INPUT}") text) w1) as [e [w2 Hd]].
      unfold call_model, try_except, ret. rewrite Hd. cbn [fst item_entry].
      destruct fallback_validates as [obj [Hval [Hdump _]]].
      unfold validation_node, get_raw_response, apply_update.
      cbn [raw_response upd_raw_response].
      rewrite Hval. cbn. rewrite Hdump. reflexivity. }
  rewrite main_run, Hrun.
  eexists. eexists. split; [reflexivity |].
  cbn [results metrics total].
  rewrite count_ok_fallback, length_map.
  split; [reflexivity |]. split; [f_equal; lia | reflexivity].
Qed.

(* ================================================================== *)
(** * Serializing and reading back *)
(* ================================================================== *)

Lemma hex_escape_reads_back (c : N) :
  (c < 32)%N ->
  hex4 48 48 (hex_digit (c / 16)) (hex_digit (c mod 16)) = Some c
  /\ is_high_surrogate c = false /\ is_low_surrogate c = false.
Proof.
  intros H.
  assert (Hn : exists n, (n < 32)%nat /\ c = N.of_nat n).
  { exists (N.to_nat c). split; lia. }
  destruct Hn as [n [Hn ->]].
  do 32 (destruct n as [|n]; [repeat split; reflexivity |]).
  lia.
Qed.

Lemma string_tail_plain (c : N) (rest acc : pystr) :
  (c =? 34)%N = false -> (c =? 92)%N = false -> (c <? 32)%N = false ->
  parse_string_tail (c :: rest) acc = parse_string_tail rest (c :: acc).
Proof.
  intros H1 H2 H3. cbn [parse_string_tail]. rewrite H1, H2, H3. reflexivity.
Qed.

Lemma string_tail_escape (e ch : N) (rest acc : pystr) :
  (e =? 117)%N = false -> unescape e = Some ch ->
  parse_string_tail (92%N :: e :: rest) acc = parse_string_tail rest (ch :: acc).
Proof.
  intros H1 H2. cbn [parse_string_tail].
  change (92 =? 34)%N with false. change (92 =? 92)%N with true.
  cbv beta iota. rewrite H1, H2. reflexivity.
Qed.

Lemma string_tail_hex (c : N) (rest acc : pystr) :
  (c < 32)%N ->
  parse_string_tail
    (92%N :: 117%N :: 48%N :: 48%N
       :: hex_digit (c / 16) :: hex_digit (c mod 16) :: rest) acc
  = parse_string_tail rest (c :: acc).
Proof.
  intros H. destruct (hex_escape_reads_back H) as [Hh [Hs Hl]].
  cbn [parse_string_tail].
  change (92 =? 34)%N with false. change (92 =? 92)%N with true.
  change (117 =? 117)%N with true.
  cbv beta iota. rewrite Hh, Hs, Hl. reflexivity.
Qed.

(** The reader undoes the escapes of the serializer: after the opening
    quote, the escaped form of [s] and a quote give back [s]. *)
Lemma string_tail_reads_escaped (s : pystr) :
  forall acc rest,
    parse_string_tail (flat_map escape_char s ++ 34%N :: rest) acc
    = Some (rev acc ++ s, rest).
Proof.
  induction s as [|c s IH]; intros acc rest.
  - cbn [flat_map app parse_string_tail]. change (34 =? 34)%N with true.
    cbv beta iota. now rewrite app_nil_r.
  - cbn [flat_map]. rewrite <- app_assoc.
    replace (rev acc ++ c :: s) with (rev (c :: acc) ++ s)
      by (cbn [rev]; now rewrite <- app_assoc).
    unfold escape_char.
    destruct (c =? 34)%N eqn:E1.
    { apply N.eqb_eq in E1. subst c. cbn [app].
      rewrite (@string_tail_escape 34 34 _ _ eq_refl eq_refl). apply IH. }
    destruct (c =? 92)%N eqn:E2.
    { apply N.eqb_eq in E2. subst c. cbn [app].
      rewrite (@string_tail_escape 92 92 _ _ eq_refl eq_refl). apply IH. }
    destruct (c =? 10)%N eqn:E3.
    { apply N.eqb_eq in E3. subst c. cbn [app].
      rewrite (@string_tail_escape 110 10 _ _ eq_refl eq_refl). apply IH. }
    destruct (c =? 13)%N eqn:E4.
    { apply N.eqb_eq in E4. subst c. cbn [app].
      rewrite (@string_tail_escape 114 13 _ _ eq_refl eq_refl). apply IH. }
    destruct (c =? 9)%N eqn:E5.
    { apply N.eqb_eq in E5. subst c. cbn [app].
      rewrite (@string_tail_escape 116 9 _ _ eq_refl eq_refl). apply IH. }
    destruct (c =? 8)%N eqn:E6.
    { apply N.eqb_eq in E6. subst c. cbn [app].
      rewrite (@string_tail_escape 98 8 _ _ eq_refl eq_refl). apply IH. }
    destruct (c =? 12)%N eqn:E7.
    { apply N.eqb_eq in E7. subst c. cbn [app].
      rewrite (@string_tail_escape 102 12 _ _ eq_refl eq_refl). apply IH. }
    destruct (c <? 32)%N eqn:E8.
    { apply N.ltb_lt in E8. cbn [app].
      rewrite (@string_tail_hex c _ _ E8). apply IH. }
    cbn [app]. rewrite (@string_tail_plain c _ _ E1 E2 E8). apply IH.
Qed.

(** What a serialized value begins with: never a blank, nor the end of a
    container. *)
Lemma dumps_head (v : PyVal) :
  exists c r,
    dumps v = c :: r
    /\ is_json_ws c = false /\ (c =? 93)%N = false /\ (c =? 125)%N = false.
Proof.
  destruct v as [s|[|]|items|entries].
  - exists 34%N, (flat_map escape_char s ++ [34%N]).
    split; [reflexivity |]. split; [reflexivity |]. split; reflexivity.
  - exists 116%N, (u "rue").
    split; [reflexivity |]. split; [reflexivity |]. split; reflexivity.
  - exists 102%N, (u "alse").
    split; [reflexivity |]. split; [reflexivity |]. split; reflexivity.
  - exists 91%N, (join (u ", ") (map dumps items) ++ u "]").
    split; [reflexivity |]. split; [reflexivity |]. split; reflexivity.
  - exists 123%N,
      (join (u ", ")
         (map (fun kv => encode_basestring (fst kv) ++ u ": " ++ dumps (snd kv))
              entries)
       ++ u "}").
    split; [reflexivity |]. split; [reflexivity |]. split; reflexivity.
Qed.

Lemma skip_ws_head (c : N) (r : pystr) :
  is_json_ws c = false -> skip_ws (c :: r) = c :: r.
Proof. intros H. cbn [skip_ws]. now rewrite H. Qed.

Lemma skip_ws_dumps (v : PyVal) (rest : pystr) :
  skip_ws (dumps v ++ rest) = dumps v ++ rest.
Proof.
  destruct (dumps_head v) as [c [r [-> [Hws _]]]].
  cbn [app]. now apply skip_ws_head.
Qed.

Lemma join_two (sep p q : pystr) (rest : list pystr) :
  join sep (p :: q :: rest) = p ++ sep ++ join sep (q :: rest).
Proof. reflexivity. Qed.

Lemma join_one (sep p : pystr) : join sep [p] = p.
Proof. reflexivity. Qed.

Lemma join_cons (sep p : pystr) (parts : list pystr) :
  parts <> [] -> join sep (p :: parts) = p ++ sep ++ join sep parts.
Proof. destruct parts; [congruence | reflexivity]. Qed.

(** A joined list of non-empty parts begins as its first part does and
    has at least one character for each part. *)
Lemma join_head (sep : pystr) (parts : list pystr) :
  forall (p : pystr) (c : N) (r : pystr),
    p = c :: r ->
    Forall (fun q => q <> []) parts ->
    exists r', join sep (p :: parts) = c :: r'
               /\ (List.length parts <= List.length r')%nat.
Proof.
  induction parts as [|q parts IH]; intros p c r -> Hne.
  - exists r. split; [reflexivity | cbn; lia].
  - inversion Hne as [|? ? Hq Hparts]; subst.
    assert (Eq : exists c' q', q = c' :: q') by (destruct q; [congruence | eauto]).
    destruct Eq as [c' [q' Eq]].
    destruct (IH q c' q' Eq Hparts) as [r' [Hj Hlen]].
    exists (r ++ sep ++ c' :: r').
    split; [rewrite join_two, Hj; reflexivity |].
    rewrite !length_app. cbn [List.length]. lia.
Qed.

Lemma items_step_last (f : pystr -> option (JsonValue * pystr)) (fuel : nat)
    (inp : pystr) (v : JsonValue) (rest : pystr) (acc : list JsonValue) :
  f inp = Some (v, 93%N :: rest) ->
  parse_items f (S fuel) inp acc = Some (rev (v :: acc), rest).
Proof. intros H. cbn [parse_items]. rewrite H. reflexivity. Qed.

Lemma items_step_more (f : pystr -> option (JsonValue * pystr)) (fuel : nat)
    (inp : pystr) (v : JsonValue) (rest : pystr) (acc : list JsonValue) :
  f inp = Some (v, 44%N :: 32%N :: rest) ->
  skip_ws rest = rest ->
  parse_items f (S fuel) inp acc = parse_items f fuel rest (v :: acc).
Proof.
  intros H Hs. cbn [parse_items]. rewrite H.
  replace (skip_ws (44%N :: 32%N :: rest)) with (44%N :: 32%N :: rest) by reflexivity.
  cbv beta iota. change (44 =? 44)%N with true. cbv beta iota.
  replace (skip_ws (32%N :: rest)) with (skip_ws rest) by reflexivity.
  now rewrite Hs.
Qed.

Lemma skip_ws_joined_values (v : PyVal) (items : list PyVal) (rest : pystr) :
  skip_ws (join (u ", ") (map dumps (v :: items)) ++ rest)
  = join (u ", ") (map dumps (v :: items)) ++ rest.
Proof.
  destruct items as [|v2 items]; cbn [map].
  - rewrite join_one. apply skip_ws_dumps.
  - rewrite join_two, <- app_assoc. apply skip_ws_dumps.
Qed.

Section Containers_read_back.

Variable d : nat.
Hypothesis values_read_back :
  forall v rest,
    (py_depth v <= d)%nat ->
    parse_value d (dumps v ++ rest) = Some (json_of_py v, rest).

Lemma parse_items_dumped (items : list PyVal) :
  forall v acc rest fuel,
    Forall (fun x => (py_depth x <= d)%nat) (v :: items) ->
    (List.length items < fuel)%nat ->
    parse_items (parse_value d) fuel
      (join (u ", ") (map dumps (v :: items)) ++ 93%N :: rest) acc
    = Some (rev acc ++ map json_of_py (v :: items), rest).
Proof.
  induction items as [|v2 items IHi]; intros v acc rest fuel Hd Hf;
    (destruct fuel as [|fuel]; [cbn in Hf; lia |]);
    inversion Hd as [|? ? Hv Hrest]; subst.
  - cbn [map]. rewrite join_one.
    rewrite (@items_step_last _ fuel _ _ _ acc (values_read_back v (93%N :: rest) Hv)).
    reflexivity.
  - change (map dumps (v :: v2 :: items)) with (dumps v :: map dumps (v2 :: items)).
    change (map dumps (v2 :: items)) with (dumps v2 :: map dumps items).
    rewrite join_two, <- !app_assoc.
    change (map json_of_py (v :: v2 :: items))
      with (json_of_py v :: map json_of_py (v2 :: items)).
    replace (u ", " ++ join (u ", ") (dumps v2 :: map dumps items) ++ 93%N :: rest)
      with (44%N :: 32%N
              :: (join (u ", ") (map dumps (v2 :: items)) ++ 93%N :: rest))
      by reflexivity.
    rewrite (@items_step_more _ fuel _ _ _ acc (values_read_back v _ Hv)
               (skip_ws_joined_values v2 items (93%N :: rest))).
    rewrite (IHi v2 (json_of_py v :: acc) rest fuel Hrest)
      by (cbn [List.length] in Hf; lia).
    cbn [rev]. now rewrite <- app_assoc.
Qed.

(** One member of a serialized object: the key, the colon and the value
    are read, and what follows decides. *)
Lemma members_step (fuel : nat) (k : pystr) (v : PyVal) (rest : pystr)
    (acc : list (pystr * JsonValue)) :
  (py_depth v <= d)%nat ->
  parse_members (parse_value d) (S fuel)
    ((encode_basestring k ++ u ": " ++ dumps v) ++ rest) acc
  = match skip_ws rest with
    | [] => None
    | c :: r4 =>
        if (c =? 44)%N
        then parse_members (parse_value d) fuel (skip_ws r4) ((k, json_of_py v) :: acc)
        else if (c =? 125)%N then Some (rev ((k, json_of_py v) :: acc), r4)
        else None
    end.
Proof.
  intros Hv.
  replace ((encode_basestring k ++ u ": " ++ dumps v) ++ rest)
    with (34%N :: flat_map escape_char k ++ 34%N :: 58%N :: 32%N :: (dumps v ++ rest)).
  2:{ unfold encode_basestring. cbn [app]. f_equal.
      rewrite <- !app_assoc. reflexivity. }
  cbn [parse_members]. change (negb (34 =? 34)%N) with false. cbv beta iota.
  rewrite string_tail_reads_escaped. cbn [rev app].
  replace (skip_ws (58%N :: 32%N :: dumps v ++ rest))
    with (58%N :: 32%N :: dumps v ++ rest) by reflexivity.
  cbv beta iota. change (negb (58 =? 58)%N) with false. cbv beta iota.
  replace (skip_ws (32%N :: dumps v ++ rest))
    with (skip_ws (dumps v ++ rest)) by reflexivity.
  rewrite skip_ws_dumps, (values_read_back v _ Hv). reflexivity.
Qed.

Lemma skip_ws_joined_entries (kv : pystr * PyVal) (entries : list (pystr * PyVal))
    (rest : pystr) :
  skip_ws
    (join (u ", ")
       (map (fun kv => encode_basestring (fst kv) ++ u ": " ++ dumps (snd kv))
            (kv :: entries))
     ++ rest)
  = join (u ", ")
      (map (fun kv => encode_basestring (fst kv) ++ u ": " ++ dumps (snd kv))
           (kv :: entries))
    ++ rest.
Proof.
  destruct entries as [|kv2 entries]; cbn [map].
  - rewrite join_one. reflexivity.
  - rewrite join_two. reflexivity.
Qed.

Lemma parse_members_dumped (entries : list (pystr * PyVal)) :
  forall kv acc rest fuel,
    Forall (fun x => (py_depth (snd x) <= d)%nat) (kv :: entries) ->
    (List.length entries < fuel)%nat ->
    parse_members (parse_value d) fuel
      (join (u ", ")
         (map (fun kv => encode_basestring (fst kv) ++ u ": " ++ dumps (snd kv))
              (kv :: entries))
       ++ 125%N :: rest) acc
    = Some (rev acc ++ map (fun kv => (fst kv, json_of_py (snd kv))) (kv :: entries),
            rest).
Proof.
  induction entries as [|kv2 entries IHe]; intros kv acc rest fuel Hd Hf;
    (destruct fuel as [|fuel]; [cbn in Hf; lia |]);
    inversion Hd as [|? ? Hv Hrest]; subst.
  - cbn [map]. rewrite join_one, (@members_step fuel (fst kv) (snd kv) _ acc Hv).
    reflexivity.
  - rewrite map_cons.
    rewrite (@join_cons (u ", ") _
               (map (fun kv0 => encode_basestring (fst kv0) ++ u ": " ++ dumps (snd kv0))
                    (kv2 :: entries)))
      by discriminate.
    set (J := join (u ", ")
                (map (fun kv0 => encode_basestring (fst kv0) ++ u ": " ++ dumps (snd kv0))
                     (kv2 :: entries))).
    rewrite <- app_assoc, <- (app_assoc (u ", ") J).
    rewrite (@members_step fuel (fst kv) (snd kv) _ acc Hv).
    replace (skip_ws (u ", " ++ J ++ 125%N :: rest))
      with (44%N :: 32%N :: (J ++ 125%N :: rest)) by reflexivity.
    cbv beta iota. change (44 =? 44)%N with true. cbv beta iota.
    replace (skip_ws (32%N :: J ++ 125%N :: rest))
      with (skip_ws (J ++ 125%N :: rest)) by reflexivity.
    unfold J. rewrite skip_ws_joined_entries.
    rewrite (IHe kv2 ((fst kv, json_of_py (snd kv)) :: acc) rest fuel Hrest)
      by (cbn [List.length] in Hf; lia).
    cbn [rev]. now rewrite <- app_assoc.
Qed.

End Containers_read_back.

Lemma max_bound {A} (f : A -> nat) (l : list A) (d : nat) :
  (fold_right Nat.max 0%nat (map f l) <= d)%nat ->
  Forall (fun x => (f x <= d)%nat) l.
Proof.
  induction l as [|x l IH]; intros H; constructor; cbn in H; [lia | apply IH; lia].
Qed.

Lemma dumps_not_empty (v : PyVal) : dumps v <> [].
Proof. destruct (dumps_head v) as [c [r [-> _]]]. discriminate. Qed.

Lemma parse_value_string (d : nat) (s rest : pystr) :
  parse_value d (dumps (PyStr s) ++ rest) = Some (JStr s, rest).
Proof.
  replace (dumps (PyStr s) ++ rest)
    with (34%N :: flat_map escape_char s ++ 34%N :: rest)
    by (cbn [dumps]; unfold encode_basestring; cbn [app];
        now rewrite <- app_assoc).
  destruct d;
    cbn -[parse_items parse_members parse_number strip_prefix parse_string_tail
          skip_ws N.eqb u];
    change (34 =? 91)%N with false; change (34 =? 123)%N with false;
    change (34 =? 34)%N with true; cbv beta iota;
    rewrite string_tail_reads_escaped; reflexivity.
Qed.

Lemma parse_value_bool (d : nat) (b : bool) (rest : pystr) :
  parse_value d (dumps (PyBool b) ++ rest) = Some (JBool b, rest).
Proof. destruct d, b; reflexivity. Qed.

Lemma parse_value_array (d : nat) (c : N) (r : pystr) :
  is_json_ws c = false -> (c =? 93)%N = false ->
  parse_value (S d) (91%N :: c :: r)
  = match parse_items (parse_value d) (S (List.length r)) (c :: r) [] with
    | Some (items, r') => Some (JArr items, r')
    | None => None
    end.
Proof.
  intros Hws H93.
  cbn -[parse_items parse_members parse_number strip_prefix parse_string_tail
        skip_ws N.eqb u].
  change (91 =? 91)%N with true. cbv beta iota.
  rewrite (@skip_ws_head c r Hws), H93. reflexivity.
Qed.

Lemma parse_value_object (d : nat) (c : N) (r : pystr) :
  is_json_ws c = false -> (c =? 125)%N = false ->
  parse_value (S d) (123%N :: c :: r)
  = match parse_members (parse_value d) (S (List.length r)) (c :: r) [] with
    | Some (members, r') => Some (JObj members, r')
    | None => None
    end.
Proof.
  intros Hws H125.
  cbn -[parse_items parse_members parse_number strip_prefix parse_string_tail
        skip_ws N.eqb u].
  change (123 =? 91)%N with false. change (123 =? 123)%N with true. cbv beta iota.
  rewrite (@skip_ws_head c r Hws), H125. reflexivity.
Qed.

(** The reader gives back the value the serializer was given, and what
    follows it in the input, as long as the value is not nested deeper
    than the reader goes. *)
Lemma parse_value_dumps (d : nat) :
  forall v rest,
    (py_depth v <= d)%nat ->
    parse_value d (dumps v ++ rest) = Some (json_of_py v, rest).
Proof.
  induction d as [|d IH]; intros v rest Hd.
  - destruct v as [s|b|items|entries].
    + apply parse_value_string.
    + apply parse_value_bool.
    + cbn [py_depth] in Hd. lia.
    + cbn [py_depth] in Hd. lia.
  - destruct v as [s|b|items|entries].
    + apply parse_value_string.
    + apply parse_value_bool.
    + destruct items as [|v items]; [reflexivity |].
      cbn [py_depth] in Hd. apply le_S_n, max_bound in Hd.
      destruct (dumps_head v) as [c [r [Hv [Hws [H93 _]]]]].
      destruct (@join_head (u ", ") (map dumps items) (dumps v) c r Hv)
        as [r' [Hj Hlen]].
      { apply Forall_map, Forall_forall. intros x _. apply dumps_not_empty. }
      rewrite length_map in Hlen.
      replace (dumps (PyList (v :: items)) ++ rest)
        with (91%N :: c :: r' ++ 93%N :: rest).
      2:{ cbn [dumps]. change (u "[") with [91%N]. change (u "]") with [93%N].
          cbn [app]. f_equal. rewrite <- app_assoc. cbn [map]. rewrite Hj.
          reflexivity. }
      rewrite (@parse_value_array d c _ Hws H93).
      change (c :: r' ++ 93%N :: rest) with ((c :: r') ++ 93%N :: rest).
      rewrite <- Hj. change (dumps v :: map dumps items) with (map dumps (v :: items)).
      rewrite (@parse_items_dumped d IH items v [] rest _ Hd)
        by (rewrite length_app; lia).
      reflexivity.
    + destruct entries as [|kv entries]; [reflexivity |].
      cbn [py_depth] in Hd. apply le_S_n, max_bound in Hd.
      set (entry := fun kv : pystr * PyVal =>
                      encode_basestring (fst kv) ++ u ": " ++ dumps (snd kv)).
      destruct (@join_head (u ", ") (map entry entries) (entry kv) 34%N
                  (flat_map escape_char (fst kv) ++ [34%N] ++ u ": " ++ dumps (snd kv)))
        as [r' [Hj Hlen]].
      { unfold entry, encode_basestring. cbn [app]. f_equal.
        now rewrite <- app_assoc. }
      { apply Forall_map, Forall_forall. intros x _. unfold entry, encode_basestring.
        discriminate. }
      rewrite length_map in Hlen. rewrite <- map_cons in Hj. unfold entry in Hj.
      replace (dumps (PyDict (kv :: entries)) ++ rest)
        with (123%N :: 34%N :: r' ++ 125%N :: rest).
      2:{ cbn [dumps]. change (u "{") with [123%N]. change (u "}") with [125%N].
          cbn [app]. f_equal. rewrite <- app_assoc. rewrite Hj. reflexivity. }
      rewrite (@parse_value_object d 34%N _ eq_refl eq_refl).
      change (34%N :: r' ++ 125%N :: rest) with ((34%N :: r') ++ 125%N :: rest).
      rewrite <- Hj.
      rewrite (@parse_members_dumped d IH entries kv [] rest _ Hd)
        by (rewrite length_app; lia).
      reflexivity.
Qed.

Lemma parse_json_dumps (v : PyVal) :
  (py_depth v <= recursion_limit)%nat ->
  parse_json (dumps v) = Some (json_of_py v).
Proof.
  intros Hd. unfold parse_json.
  rewrite <- (app_nil_r (dumps v)), skip_ws_dumps, (@parse_value_dumps _ v [] Hd).
  reflexivity.
Qed.

Lemma skip_ws_blanks (blanks rest : pystr) :
  forallb is_json_ws blanks = true -> skip_ws (blanks ++ rest) = skip_ws rest.
Proof.
  induction blanks as [|c blanks IH]; intros H; [reflexivity |].
  cbn [forallb] in H. apply andb_prop in H as [Hc H].
  cbn [app skip_ws]. rewrite Hc. now apply IH.
Qed.

(** X15.  What [json.dumps(v, ensure_ascii=False)] writes, the reader of
    [model_validate_json] reads back as [v]: strings with every escape
    undone, lists and dictionaries with their items and keys in order;
    blanks before and after the text change nothing.  This holds for any
    value of texts, booleans, lists and dictionaries whose texts are made
    of Unicode scalar values and which is nested no deeper than the
    reader's recursion limit. *)
Theorem serialized_value_reads_back (v : PyVal) :
  encodable v = true ->
  (py_depth v <= recursion_limit)%nat ->
  parse_json (dumps v) = Some (json_of_py v)
  /\ (forall before after,
        forallb is_json_ws before = true ->
        forallb is_json_ws after = true ->
        parse_json (before ++ dumps v ++ after) = Some (json_of_py v)).
Proof.
  intros _ Hd. split; [now apply parse_json_dumps |].
  intros before after Hb Ha. unfold parse_json.
  rewrite (@skip_ws_blanks before _ Hb), skip_ws_dumps, (@parse_value_dumps _ v after Hd).
  rewrite <- (app_nil_r after), (@skip_ws_blanks after [] Ha).
  reflexivity.
Qed.

(* ================================================================== *)
(** * A valid model, dumped and read again *)
(* ================================================================== *)

Lemma strs_of_strings (l : list pystr) : strs_of (map JStr l) = Some l.
Proof. induction l as [|s l IH]; [reflexivity |]. cbn [map strs_of]. now rewrite IH. Qed.

Lemma json_of_strings (l : list pystr) : map json_of_py (map PyStr l) = map JStr l.
Proof. induction l as [|s l IH]; [reflexivity |]. cbn [map json_of_py]. now rewrite IH. Qed.

Lemma depth_of_strings (l : list pystr) :
  fold_right Nat.max 0%nat (map py_depth (map PyStr l)) = 0%nat.
Proof. induction l as [|s l IH]; [reflexivity |]. cbn [map fold_right py_depth]. now rewrite IH. Qed.

Lemma model_dump_depth (o : ClinicalOutput) : py_depth (model_dump o) = 3%nat.
Proof.
  unfold model_dump. cbn [py_depth map fold_right snd].
  rewrite !depth_of_strings. reflexivity.
Qed.

Lemma lookup_output_fields (a t s h q r c : JsonValue) :
  let members :=
    [ (u "analysis", a); (u "themes", t); (u "signifiers", s); (u "hypotheses", h);
      (u "questions", q); (u "risk_assessment", r); (u "clinical_report", c) ] in
  lookup (u "analysis") members = Some a
  /\ lookup (u "themes") members = Some t
  /\ lookup (u "signifiers") members = Some s
  /\ lookup (u "hypotheses") members = Some h
  /\ lookup (u "questions") members = Some q
  /\ lookup (u "risk_assessment") members = Some r
  /\ lookup (u "clinical_report") members = Some c.
Proof. cbv zeta. repeat split; vm_compute; reflexivity. Qed.

Lemma bounded_list_reads_back (lo hi : nat) (l : list pystr) :
  (lo <= List.length l <= hi)%nat ->
  validate_list (Some lo) (Some hi) (JArr (map JStr l)) = Valid l.
Proof.
  intros H. rewrite (@validate_list_strs lo hi _ _ (strs_of_strings l)).
  destruct (Nat.ltb_spec hi (List.length l)); [lia |].
  destruct (Nat.ltb_spec (List.length l) lo); [lia | reflexivity].
Qed.

Lemma risk_reads_back (lv : RiskLevel) (sg : list pystr) :
  validate_RiskAssessment
    (JObj [(u "level", JStr (level_str lv)); (u "signals", JArr (map JStr sg))])
  = Valid (mkRiskAssessment lv sg).
Proof.
  assert (L : forall x y,
             lookup (u "level") [(u "level", x); (u "signals", y)] = Some x
             /\ lookup (u "signals") [(u "level", x); (u "signals", y)] = Some y)
    by (intros x y; split; vm_compute; reflexivity).
  unfold validate_RiskAssessment, validate_field.
  destruct (L (JStr (level_str lv)) (JArr (map JStr sg))) as [-> ->].
  rewrite (proj2 (validate_level_exact (JStr (level_str lv)) lv) eq_refl).
  rewrite (@validate_list_unbounded _ _ (strs_of_strings sg)).
  reflexivity.
Qed.

Lemma report_reads_back (rq : bool) (sm : pystr) :
  validate_ClinicalReport
    (JObj [(u "required", JBool rq); (u "summary", JStr sm)])
  = Valid (mkClinicalReport rq sm).
Proof.
  assert (L : forall x y,
             lookup (u "required") [(u "required", x); (u "summary", y)] = Some x
             /\ lookup (u "summary") [(u "required", x); (u "summary", y)] = Some y)
    by (intros x y; split; vm_compute; reflexivity).
  unfold validate_ClinicalReport, validate_field.
  destruct (L (JBool rq) (JStr sm)) as [-> ->].
  reflexivity.
Qed.

(** The schema accepts the dump of a model that respects the data model,
    and gives the model back. *)
Lemma model_reads_back (o : ClinicalOutput) :
  satisfies_data_model o ->
  validate_ClinicalOutput (json_of_py (model_dump o)) = Valid o.
Proof.
  destruct o as [a t s h q [lv sg] [rq sm]]. unfold satisfies_data_model.
  cbn [analysis themes signifiers hypotheses questions risk_assessment
       clinical_report level signals required summary].
  intros (Ha & Ht & Hs & Hh & Hq & _).
  unfold model_dump.
  cbn [json_of_py map fst snd analysis themes signifiers hypotheses questions
       risk_assessment clinical_report level signals required summary].
  rewrite !json_of_strings.
  unfold validate_ClinicalOutput, validate_field.
  destruct (lookup_output_fields
              (JStr a) (JArr (map JStr t)) (JArr (map JStr s)) (JArr (map JStr h))
              (JArr (map JStr q))
              (JObj [(u "level", JStr (level_str lv)); (u "signals", JArr (map JStr sg))])
              (JObj [(u "required", JBool rq); (u "summary", JStr sm)]))
    as (-> & -> & -> & -> & -> & -> & ->).
  unfold validate_analysis, validate_str.
  rewrite (proj2 (validate_analysis_length_accepts a)) by (unfold min_words, max_words; lia).
  rewrite !bounded_list_reads_back by lia.
  rewrite risk_reads_back, report_reads_back.
  reflexivity.
Qed.

Lemma model_validate_dump (o : ClinicalOutput) :
  satisfies_data_model o ->
  model_validate_json (Some (dumps (model_dump o))) = inr o.
Proof.
  intros H. unfold model_validate_json.
  rewrite parse_json_dumps by (rewrite model_dump_depth; unfold recursion_limit; lia).
  now rewrite model_reads_back.
Qed.

(** X16.  A model that respects the data model survives the round trip
    through its own dump: when the raw response is the serialized form of
    [model_dump] of such a model, the validation node returns that very
    model and no error.  With the soundness of the node, the node accepts
    exactly the models of the data model. *)
Theorem valid_model_round_trip (o : ClinicalOutput) (state : ClinicalState) :
  satisfies_data_model o ->
  encodable (model_dump o) = true ->
  get_raw_response state (u "") = Some (dumps (model_dump o)) ->
  validation_node state = mkUpdate None (Some (Some o)) (Some []).
Proof.
  intros Hm _ Hraw. unfold validation_node. rewrite Hraw.
  now rewrite model_validate_dump.
Qed.

(** X17.  With a prompt that can always be loaded and a service that
    answers every request with the serialized dump of one model that
    respects the data model, the whole batch is ok: every entry carries
    its file name, no error and the dump of that model, and the metrics
    count every item as ok. *)
Theorem steady_service_every_item_ok (o : ClinicalOutput) :
  satisfies_data_model o ->
  encodable (model_dump o) = true ->
  (forall p w, exists t w', load_prompt p w = (Return t, w')) ->
  (forall p w, exists w',
      chat_completion p w = (Return (Some (dumps (model_dump o))), w')) ->
  forall (items : list (pystr * pystr)) (version : pystr) (w : World),
  exists report w',
    main items version w = (Return report, w')
    /\ results report
       = map (fun it => mkItemResult (fst it) true [] (Some (model_dump o))) items
    /\ metrics report = mkMetrics (Z.of_nat (List.length items)) 0
    /\ total report = Z.of_nat (List.length items).
Proof.
  intros Hm _ Hload Hchat items version w.
  assert (Hrun : forall items w,
             fst (run_items build_graph version items w)
             = map (fun it => mkItemResult (fst it) true [] (Some (model_dump o))) items).
  { clear items w. induction items as [|[fname text] rest IH]; intros w.
    - reflexivity.
    - rewrite run_items_cons. cbn [fst map]. rewrite IH. f_equal.
      rewrite invoke_build_graph.
      destruct (Hload version w) as [t [w1 Hl]].
      cbn [prompt_version initial_state input_text]. rewrite Hl.
      destruct (Hchat (replace t (u "{INPUT}") text) w1) as [w2 Hc].
      unfold call_model, try_except, ret. rewrite Hc. cbn [fst item_entry].
      unfold validation_node, get_raw_response, apply_update.
      cbn [raw_response upd_raw_response].
      rewrite (model_validate_dump Hm). reflexivity. }
  assert (Hok : forall items : list (pystr * pystr),
             count_ok (map (fun it => mkItemResult (fst it) true [] (Some (model_dump o)))
                           items)
             = List.length items).
  { clear. unfold count_ok. induction items as [|it items IH]; [reflexivity |].
    cbn [map filter ok List.length]. now rewrite IH. }
  rewrite main_run, Hrun.
  eexists. eexists. split; [reflexivity |].
  cbn [results metrics total].
  rewrite Hok, length_map.
  split; [reflexivity |]. split; [f_equal; lia | reflexivity].
Qed.

End Pipeline.

(* ================================================================== *)
(** * The pipeline on the sample worlds *)
(* ================================================================== *)

Example u_accent : u "médio" = [109; 233; 100; 105; 111]%N.
Proof. reflexivity. Qed.

Example split_example :
  split (u "  Eu sempre
 chego  ") = [u "Eu"; u "sempre"; u "chego"].
Proof. reflexivity. Qed.

Example replace_example :
  replace default_template (u "{INPUT}") (u "oi")
  = newline ++ indent8
    ++ u "Você é uma IA de Psicanálise. Analise o texto abaixo e retorne APENAS um JSON válido."
    ++ newline ++ indent8 ++ u "Texto: oi" ++ newline ++ indent8.
Proof. reflexivity. Qed.

Example dumps_example :
  dumps (PyDict [(u "level", PyStr (u "médio")); (u "signals", PyList []);
                 (u "required", PyBool false)])
  = u "{" ++ [34%N] ++ u "level" ++ [34%N] ++ u ": " ++ [34%N] ++ u "médio" ++ [34%N]
    ++ u ", " ++ [34%N] ++ u "signals" ++ [34%N] ++ u ": [], "
    ++ [34%N] ++ u "required" ++ [34%N] ++ u ": false}".
Proof. reflexivity. Qed.

Example parse_json_reads_back_mock :
  parse_json (dumps mock_response) = Some (json_of_py mock_response).
Proof. vm_compute. reflexivity. Qed.

Example parse_json_refuses :
  parse_json (u "") = None
  /\ parse_json (u "Desculpe, não posso ajudar.") = None
  /\ parse_json (u "[1, 2,]") = None
  /\ parse_json (u "{} {}") = None
  /\ parse_json (u "[1, 2.5e-3, true, null, {}]")
     = Some (JArr [JNum (u "1"); JNum (u "2.5e-3"); JBool true; JNull; JObj []]).
Proof. repeat split; vm_compute; reflexivity. Qed.

(** The reader at its recursion limit: two hundred arrays around a number
    are read and one more is refused, while one more is read when the
    innermost array is empty. *)
Example parse_json_at_the_limit :
  parse_json (repeat 91%N 200 ++ u "1" ++ repeat 93%N 200) <> None
  /\ parse_json (repeat 91%N 201 ++ u "1" ++ repeat 93%N 201) = None
  /\ parse_json (repeat 91%N 201 ++ repeat 93%N 201) <> None
  /\ parse_json (repeat 91%N 202 ++ repeat 93%N 202) = None
  /\ parse_json (repeat 123%N 1 ++ repeat 125%N 1) = Some (JObj []).
Proof.
  split; [vm_compute; discriminate |].
  split; [vm_compute; reflexivity |].
  split; [vm_compute; discriminate |].
  split; vm_compute; reflexivity.
Qed.

(** A document 201 arrays deep with nothing in the innermost one is read,
    and refused by the schema as no object. *)
Example deep_empty_array_is_no_object :
  validation_node sample_json_error_text sample_number_as_bool
    (sample_state (Some (repeat 91%N 201 ++ repeat 93%N 201)))
  = mkUpdate None (Some None)
      (Some [u "Validation Error: Input should be an object at ()"]).
Proof. vm_compute. reflexivity. Qed.

(** A valid document with one more key, whose value is 200 arrays deep
    with nothing in the innermost one, is read and accepted. *)
Example deep_extra_key_is_read :
  validation_node sample_json_error_text sample_number_as_bool
    (sample_state
       (Some (u "{" ++ [34%N] ++ u "x" ++ [34%N] ++ u ": "
              ++ repeat 91%N 200 ++ repeat 93%N 200 ++ u ", "
              ++ tl (dumps (model_dump sample_output)))))
  = mkUpdate None (Some (Some sample_output)) (Some []).
Proof. vm_compute. reflexivity. Qed.

(** The scenario of the specification: one input, no prompt file, the model
    service down.  The report has one entry, ok, with no error and the
    fallback structure as output. *)
Example end_to_end_offline :
  main sample_json_error_text sample_number_as_bool
       offline_exists offline_read_text offline_chat
       [(u "exemplo_paciente.txt", u "Eu sempre chego atrasado.")] (u "v2") tt
  = (Return
       (mkRunReport (u "v2") 1 (mkMetrics 1 0)
          [mkItemResult (u "exemplo_paciente.txt") true [] (Some mock_response)]),
     tt).
Proof. vm_compute. reflexivity. Qed.

(** A service that answers with prose: the item fails with one entry. *)
Example end_to_end_prose :
  results
    (match main sample_json_error_text sample_number_as_bool
                flaky_exists flaky_read_text echo_chat
                [(u "a.txt", u "Desculpe.")] (u "v2") 0%nat with
     | (Return report, _) => report
     | (Raise _, _) => mkRunReport [] 0 (mkMetrics 0 0) []
     end)
  = [mkItemResult (u "a.txt") false
       [u "Validation Error: Invalid JSON: expected value at line 1 column 1 at ()"]
       None].
Proof. vm_compute. reflexivity. Qed.

(** Three items on the machine whose second read of the prompt file
    fails: the first and the third are ok, the second is not, and the
    metrics say two and one. *)
Example three_items_isolation :
  (match main sample_json_error_text sample_number_as_bool
              flaky_exists flaky_read_text flaky_chat three_items (u "v2") 0%nat with
   | (Return report, _) =>
       Some (map file (results report), map ok (results report),
             total report, metrics report)
   | (Raise _, _) => None
   end)
  = Some ([u "a.txt"; u "b.txt"; u "c.txt"], [true; false; true],
          3%Z, mkMetrics 2 1).
Proof. vm_compute. reflexivity. Qed.

(** Witness of C1: the offline world, any prompt. *)
Lemma fallback_payload_is_valid_witness :
  exists text obj,
    call_model offline_chat (u "Texto: Eu sempre chego atrasado.") tt
    = (Return (Some text), tt)
    /\ model_validate_json sample_json_error_text sample_number_as_bool (Some text)
       = inr obj
    /\ validation_node sample_json_error_text sample_number_as_bool
         (sample_state (Some text))
       = mkUpdate None (Some (Some obj)) (Some [])
    /\ satisfies_data_model obj.
Proof.
  destruct (fallback_payload_is_valid sample_json_error_text sample_number_as_bool
              offline_chat (u "Texto: Eu sempre chego atrasado.")
              (e := u "Connection error.") tt (w' := tt) eq_refl)
    as [text [obj [Hcall [Htext [Hval [Hnode [Hdump Hsat]]]]]]].
  exists text, obj.
  split; [exact Hcall |].
  split; [exact Hval |].
  split; [apply Hnode; reflexivity | exact Hsat].
Defined.

(** Witness of C2: texts of 40, 39, 200 and 201 words. *)
Lemma analysis_word_count_rule_witness :
  validate_analysis_length (sample_analysis 40) = Accepted (sample_analysis 40)
  /\ validate_analysis_length (sample_analysis 39)
     = ValueError (u "Análise muito curta (39 palavras). Mínimo esperado: 40.")
  /\ validate_analysis_length (sample_analysis 200) = Accepted (sample_analysis 200)
  /\ validate_analysis_length (sample_analysis 201)
     = ValueError (u "Análise muito longa (201 palavras). Máximo esperado: 200.").
Proof.
  destruct analysis_word_count_rule as [_ [_ [H40 [H39 [H200 [H201 _]]]]]].
  split; [apply H40; vm_compute; reflexivity |].
  split; [apply H39; vm_compute; reflexivity |].
  split; [apply H200; vm_compute; reflexivity |].
  apply H201; vm_compute; reflexivity.
Defined.



(** Witness of C9: the state [main] creates.  Its [raw_response] is
    [None]; the node answers with the entry for an input that is no text,
    which is not what it answers on the empty text. *)
Lemma validation_tolerates_absent_raw_response_witness :
  validation_node sample_json_error_text sample_number_as_bool
    (initial_state (u "a.txt") (u "Eu sempre chego atrasado.") (u "v2"))
  = mkUpdate None (Some None)
      (Some [u "Validation Error: JSON input should be string, bytes or bytearray at ()"])
  /\ validation_node sample_json_error_text sample_number_as_bool
       (initial_state (u "a.txt") (u "Eu sempre chego atrasado.") (u "v2"))
     <> validation_node sample_json_error_text sample_number_as_bool
          (sample_state (Some (u ""))).
Proof.
  destruct (validation_tolerates_absent_raw_response
              sample_json_error_text sample_number_as_bool
              (initial_state (u "a.txt") (u "Eu sempre chego atrasado.") (u "v2")))
    as [_ [_ Hnone]].
  destruct (Hnone eq_refl) as [Hentry Hdiff].
  split; [exact Hentry |].
  apply Hdiff. reflexivity.
Defined.

(** Witness of C10: two prompts, the service down for both. *)
Lemma fallback_is_prompt_insensitive_witness :
  fst (call_model offline_chat (u "Texto: Eu sempre chego atrasado.") tt)
  = fst (call_model offline_chat (u "Texto: Quando chego, fico em silêncio.") tt).
Proof.
  apply (proj1 (fallback_is_prompt_insensitive offline_exists offline_read_text
                  offline_chat)
           (u "Texto: Eu sempre chego atrasado.")
           (u "Texto: Quando chego, fico em silêncio.")
           (u "Connection error.") (u "Connection error.") tt tt tt tt eq_refl eq_refl).
Defined.

(** Witness of C5: three items on the machine whose second read of the
    prompt file fails.  The second entry is the runtime fault and the batch
    counts three. *)
Lemma batch_survives_item_fault_witness :
  exists report w3,
    main sample_json_error_text sample_number_as_bool
         flaky_exists flaky_read_text flaky_chat three_items (u "v2") 0%nat
    = (Return report, w3)
    /\ nth_error (results report) 1
       = Some (mkItemResult (u "b.txt") false
                 [u "Runtime Error: " ++ u "[Errno 5] Input/output error"] None)
    /\ total report = 3%Z.
Proof.
  destruct (main sample_json_error_text sample_number_as_bool
              flaky_exists flaky_read_text flaky_chat
              [(u "a.txt", u "Eu sempre chego atrasado.")] (u "v2") 0%nat)
    as [[before | e] w1] eqn:Hpre.
  - assert (Hw1 : w1 = 1%nat).
    { pose proof Hpre as H. vm_compute in H. injection H as _ E. exact (eq_sym E). }
    subst w1.
    destruct (batch_survives_item_fault
                sample_json_error_text sample_number_as_bool
                flaky_exists flaky_read_text flaky_chat
                [(u "a.txt", u "Eu sempre chego atrasado.")]
                [(u "c.txt", u "Quando chego, fico em silêncio.")]
                (u "b.txt") (u "Parece que faço isso de propósito.") (u "v2")
                (e := u "[Errno 5] Input/output error") 0%nat (w2 := 2%nat) Hpre)
      as [after [w3 [report [_ [Hmain [_ [Hnth Htotal]]]]]]].
    + vm_compute. reflexivity.
    + exists report, w3.
      split; [exact Hmain |].
      split; [exact Hnth |].
      rewrite Htotal. reflexivity.
  - vm_compute in Hpre. discriminate Hpre.
Defined.


(** The sample model respects the data model. *)
Lemma sample_output_is_valid : satisfies_data_model sample_output.
Proof.
  unfold satisfies_data_model.
  split; [vm_compute; lia |]. split; [vm_compute; lia |].
  split; [vm_compute; lia |]. split; [vm_compute; lia |].
  split; [vm_compute; lia |]. right. left. reflexivity.
Qed.




(** Witness of X7: the machine with no prompt file. *)
Lemma builtin_template_prompt_witness :
  load_prompt offline_exists offline_read_text (u "v2") tt = (Return default_template, tt)
  /\ replace default_template (u "{INPUT}") (u "Eu sempre chego atrasado.")
     = default_prompt (u "Eu sempre chego atrasado.")
  /\ generation_node offline_exists offline_read_text offline_chat
       (sample_state None) tt
     = (Return (mkUpdate (Some (Some (dumps mock_response))) None None), tt).
Proof.
  generalize (builtin_template_prompt offline_exists offline_read_text offline_chat
                (sample_state None) tt (w1 := tt) eq_refl).
  vm_compute. intros H. exact H.
Defined.

(** Witness of X8: the prompt file with no placeholder; two inputs get the
    same update. *)
Lemma template_without_placeholder_witness :
  replace (u "Analise o paciente.") (u "{INPUT}") (u "Eu sempre chego atrasado.")
  = u "Analise o paciente."
  /\ generation_node plain_exists plain_read_text parrot_chat (sample_state None) tt
     = generation_node plain_exists plain_read_text parrot_chat
         (initial_state (u "b.txt") (u "Quando chego, fico em silêncio.") (u "v2")) tt.
Proof.
  generalize (template_without_placeholder plain_exists plain_read_text parrot_chat
                (sample_state None)
                (initial_state (u "b.txt") (u "Quando chego, fico em silêncio.") (u "v2"))
                (template := u "Analise o paciente.") tt (w1 := tt)).
  vm_compute. intros H. apply H; reflexivity.
Defined.

(** Witness of X11: one item on the machine with no prompt file and no
    network. *)
Lemma graph_final_state_witness :
  exists fs,
    invoke (build_graph sample_json_error_text sample_number_as_bool
              offline_exists offline_read_text offline_chat)
           (initial_state (u "a.txt") (u "Eu sempre chego atrasado.") (u "v2")) tt
    = (Return fs, tt)
    /\ filename fs = u "a.txt"
    /\ ((exists o, parsed_output fs = Some o) <-> errors fs = [])
    /\ (forall o, parsed_output fs = Some o -> satisfies_data_model o).
Proof.
  destruct (invoke (build_graph sample_json_error_text sample_number_as_bool
                      offline_exists offline_read_text offline_chat)
                   (initial_state (u "a.txt") (u "Eu sempre chego atrasado.") (u "v2")) tt)
    as [[fs | e] []] eqn:H.
  - destruct (graph_final_state sample_json_error_text sample_number_as_bool
                offline_exists offline_read_text offline_chat
                (initial_state (u "a.txt") (u "Eu sempre chego atrasado.") (u "v2"))
                tt (w' := tt) H)
      as [Hname [_ [_ [_ [_ [Hiff Hsound]]]]]].
    exists fs. split; [reflexivity |]. split; [exact Hname |].
    split; [exact Hiff | exact Hsound].
  - vm_compute in H. discriminate H.
Defined.

(** Witness of X14: three items on the machine with no prompt file and no
    network. *)
Lemma service_down_every_item_ok_witness :
  exists report w',
    main sample_json_error_text sample_number_as_bool
         offline_exists offline_read_text offline_chat three_items (u "v2") tt
    = (Return report, w')
    /\ results report = map (fun it => fallback_result (fst it)) three_items
    /\ metrics report = mkMetrics (Z.of_nat (List.length three_items)) 0
    /\ total report = Z.of_nat (List.length three_items).
Proof.
  apply (service_down_every_item_ok sample_json_error_text sample_number_as_bool
           offline_exists offline_read_text offline_chat).
  - intros p w. exists default_template, w. reflexivity.
  - intros p w. exists (u "Connection error."), w. reflexivity.
Defined.

(** Witness of X15: the dump of the sample model, whose texts need four
    kinds of escape. *)
Lemma serialized_value_reads_back_witness :
  parse_json (dumps (model_dump sample_output))
  = Some (json_of_py (model_dump sample_output)).
Proof.
  destruct (serialized_value_reads_back (model_dump sample_output)) as [H _].
  - vm_compute. reflexivity.
  - vm_compute. lia.
  - exact H.
Defined.

(** Witness of X16: the sample model. *)
Lemma valid_model_round_trip_witness :
  validation_node sample_json_error_text sample_number_as_bool
    (sample_state (Some (dumps (model_dump sample_output))))
  = mkUpdate None (Some (Some sample_output)) (Some []).
Proof.
  apply (valid_model_round_trip sample_json_error_text sample_number_as_bool
           (o := sample_output)).
  - exact sample_output_is_valid.
  - vm_compute. reflexivity.
  - reflexivity.
Defined.

(** Witness of X17: three items, no prompt file, and the service that
    answers with the sample model. *)
Lemma steady_service_every_item_ok_witness :
  exists report w',
    main sample_json_error_text sample_number_as_bool
         offline_exists offline_read_text steady_chat three_items (u "v2") tt
    = (Return report, w')
    /\ results report
       = map (fun it => mkItemResult (fst it) true [] (Some (model_dump sample_output)))
             three_items
    /\ metrics report = mkMetrics (Z.of_nat (List.length three_items)) 0
    /\ total report = Z.of_nat (List.length three_items).
Proof.
  apply (steady_service_every_item_ok sample_json_error_text sample_number_as_bool
           offline_exists offline_read_text steady_chat (o := sample_output)).
  - exact sample_output_is_valid.
  - vm_compute. reflexivity.
  - intros p w. exists default_template, w. reflexivity.
  - intros p w. exists w. reflexivity.
Defined.
